(** * Target managers of the promtail log-shipping agent

    A shallow embedding of
    [vendor/github.com/grafana/loki/pkg/promtail/targets/manager.go]:
    the constructor [NewTargetManagers] and the four methods of
    [TargetManagers] ([ActiveTargets], [AllTargets], [Ready], [Stop]).

    The packages the file imports (stdin, positions, file, journal, syslog,
    gcplog, lokipush, errors, scrapeconfig) are outside the verified unit.
    Their constructors are taken as an environment [Env] of functions, and
    every call the manager makes into them is recorded in a trace of
    [Event]s, so that which calls happen, with which arguments and in which
    order, can be stated. *)

From stdpp Require Import gmap strings list fin_maps.

Open Scope string_scope.
Open Scope list_scope.

(** ** Collaborators declared outside the package *)

(** Values whose contents this package never inspects are kept as labels. *)
Definition Shutdownable := string.
Definition Registerer := string.
Definition Logger := string.
Definition EntryHandler := string.
Definition Target := string.

Module errors.
(** [github.com/pkg/errors]: [New] builds an error from a message, [Wrap]
    annotates a non-nil cause with a message.  A Go [error] that may be
    nil is an [option error]. *)
Inductive error : Type :=
| New (message : string)
| Wrap (cause : error) (message : string).

Fixpoint Error (e : error) : string :=
  match e with
  | New message => message
  | Wrap cause message => message +:+ ": " +:+ Error cause
  end.
End errors.
Export errors.

Module scrapeconfig.
(** [scrapeconfig.Config], as far as manager.go reads it.  The four
    pointer fields are [None] when nil.  [HasServiceDiscoveryConfig] is
    a method whose body is not part of this package; the field holds
    its answer. *)
Record Config : Type := {
  JobName : string;
  HasServiceDiscoveryConfig : bool;
  JournalConfig : option string;
  SyslogConfig : option string;
  GcplogConfig : option string;
  PushConfig : option string
}.
End scrapeconfig.
Export scrapeconfig.

Module positions.
Definition Config := string.
(** The [positions.Positions] interface value returned by [positions.New]. *)
Record Positions : Type := { positions_file : string }.
End positions.

Module file.
(** [file.Config]; only [Stdin] is read here. *)
Record Config : Type := { Stdin : bool; SyncPeriod : nat }.
Record Metrics : Type := { reg : Registerer }.
End file.

Module syslog.
Record Metrics : Type := { reg : Registerer }.
End syslog.

Module gcplog.
Record Metrics : Type := { reg : Registerer }.
End gcplog.

(** ** The package's own declarations *)

Definition FileScrapeConfigs : string := "fileScrapeConfigs".
Definition JournalScrapeConfigs : string := "journalScrapeConfigs".
Definition SyslogScrapeConfigs : string := "syslogScrapeConfigs".
Definition GcplogScrapeConfigs : string := "gcplogScrapeConfigs".
Definition PushScrapeConfigs : string := "pushScrapeConfigs".

(** The [targetManager] interface.  A value of the interface is the record
    of what its query methods answer; [handle] tells two backends apart.
    Calling its [Stop] is an [Event]. *)
Record targetManager : Type := {
  handle : string;
  t_Ready : bool;
  t_ActiveTargets : gmap string (list Target);
  t_AllTargets : gmap string (list Target)
}.

Record TargetManagers : Type := {
  targetManagers : list targetManager;
  positions : option positions.Positions
}.

(** ** Calls into the collaborators *)

Inductive Event : Type :=
| Log_Debug (logger : Logger) (msg : string)
| stdin_NewStdinTargetManager
    (reg : Registerer) (logger : Logger) (app : Shutdownable)
    (client : EntryHandler) (scrapeConfigs : list Config)
| positions_New (logger : Logger) (cfg : positions.Config)
| file_NewMetrics (reg : Registerer)
| syslog_NewMetrics (reg : Registerer)
| gcplog_NewMetrics (reg : Registerer)
| file_NewFileTargetManager
    (metrics : option file.Metrics) (logger : Logger)
    (positions : positions.Positions) (client : EntryHandler)
    (scrapeConfigs : list Config) (targetConfig : file.Config)
| journal_NewJournalTargetManager
    (reg : Registerer) (logger : Logger) (positions : positions.Positions)
    (client : EntryHandler) (scrapeConfigs : list Config)
| syslog_NewSyslogTargetManager
    (metrics : option syslog.Metrics) (logger : Logger)
    (client : EntryHandler) (scrapeConfigs : list Config)
| gcplog_NewGcplogTargetManager
    (metrics : option gcplog.Metrics) (logger : Logger)
    (client : EntryHandler) (scrapeConfigs : list Config)
| lokipush_NewPushTargetManager
    (reg : Registerer) (logger : Logger)
    (client : EntryHandler) (scrapeConfigs : list Config)
| targetManager_Stop (t : targetManager)
| positions_Stop (p : positions.Positions).

(** What the fallible constructors answer.  The code only tests the error
    they return against nil: [inl err] is a non-nil error, [inr v] a nil
    error together with the value returned beside it.  The registerer,
    logger, client and application handle are the same in every call of a
    run and are left out of the arguments the answer depends on. *)
Record Env : Type := {
  env_stdin : list Config -> error + targetManager;
  env_positions : positions.Config -> error + positions.Positions;
  env_file :
    option file.Metrics -> positions.Positions -> list Config ->
    file.Config -> error + targetManager;
  env_journal : positions.Positions -> list Config -> error + targetManager;
  env_syslog : option syslog.Metrics -> list Config -> error + targetManager;
  env_gcplog : option gcplog.Metrics -> list Config -> error + targetManager;
  env_push : list Config -> error + targetManager
}.

(** ** Procedures: a trace of calls, and early return

    A procedure with return type [R] threads the trace; at each point it has
    either returned ([inl r]) or carries on with a value ([inr a]). *)
Definition Trace := list Event.

Definition Proc (R A : Type) : Type := Trace -> (R + A) * Trace.

Definition pure {R A} (a : A) : Proc R A := fun tr => (inr a, tr).

Definition Return {R A} (r : R) : Proc R A := fun tr => (inl r, tr).

Definition bind {R A B} (m : Proc R A) (k : A -> Proc R B) : Proc R B :=
  fun tr =>
    match m tr with
    | (inl r, tr') => (inl r, tr')
    | (inr a, tr') => k a tr'
    end.

Definition call {R A} (e : Event) (answer : A) : Proc R A :=
  fun tr => (inr answer, tr ++ [e]).

(** Running a procedure whose last statement is a return. *)
Definition run {R} (m : Proc R R) (tr : Trace) : R * Trace :=
  match m tr with
  | (inl r, tr') => (r, tr')
  | (inr r, tr') => (r, tr')
  end.

Declare Scope proc_scope.
Delimit Scope proc_scope with proc.
Notation "'let!' x ':=' m 'in' k" := (bind m (fun x => k))
  (at level 10, x name, m at level 100, k at level 200) : proc_scope.

(** ** Iterating over a Go map

    [for k, v := range m] visits every entry of [m] once, in an order the
    language leaves open.  The order is a parameter; it is admissible when
    it lists the entries of the map up to permutation. *)
Definition RangeOrder : Type := forall A : Type, gmap string A -> list (string * A).

Definition range_valid (range : RangeOrder) : Prop :=
  forall (A : Type) (m : gmap string A), range A m ≡ₚ map_to_list m.

(** ** NewTargetManagers *)

(** The two results of [NewTargetManagers]: a pointer to the manager (nil
    is [None]) and an error (nil is [None]). *)
Definition Result : Type := option TargetManagers * option error.

(** The [switch] of lines 71-84: the key of the first case that holds, or
    [None] for the [default] case. *)
Definition switch_case (cfg : Config) : option string :=
  if HasServiceDiscoveryConfig cfg then Some FileScrapeConfigs
  else if bool_decide (JournalConfig cfg <> None) then Some JournalScrapeConfigs
  else if bool_decide (SyslogConfig cfg <> None) then Some SyslogScrapeConfigs
  else if bool_decide (GcplogConfig cfg <> None) then Some GcplogScrapeConfigs
  else if bool_decide (PushConfig cfg <> None) then Some PushScrapeConfigs
  else None.

(** [m[key] = append(m[key], cfg)]: reading a missing key gives nil. *)
Definition append_to (key : string) (cfg : Config)
    (m : gmap string (list Config)) : gmap string (list Config) :=
  <[key := (m !!! key) ++ [cfg]]> m.

(** Lines 70-85. *)
Fixpoint classify_loop (scrapeConfigs : list Config)
    (targetScrapeConfigs : gmap string (list Config))
    : Proc Result (gmap string (list Config)) :=
  match scrapeConfigs with
  | [] => pure targetScrapeConfigs
  | cfg :: rest =>
      match switch_case cfg with
      | Some key => classify_loop rest (append_to key cfg targetScrapeConfigs)
      | None => Return (None, Some (New "unknown scrape config"))
      end
  end.

Section construction.
Variable E : Env.
Variables (app : Shutdownable) (reg : Registerer) (logger : Logger).
Variables (client : EntryHandler) (targetConfig : file.Config).
Variables (fileMetrics : option file.Metrics).
Variables (syslogMetrics : option syslog.Metrics).
Variables (gcplogMetrics : option gcplog.Metrics).
Variable positions : positions.Positions.

(** The body of the loop of lines 102-165 for one entry of the map. *)
Definition build_one (target : string) (scrapeConfigs : list Config)
    (targetManagers : list targetManager) : Proc Result (list targetManager) :=
  (if decide (target = FileScrapeConfigs) then
     let! r := call (file_NewFileTargetManager fileMetrics logger positions
                       client scrapeConfigs targetConfig)
                    (env_file E fileMetrics positions scrapeConfigs targetConfig) in
     match r with
     | inl err => Return (None, Some (Wrap err "failed to make file target manager"))
     | inr fileTargetManager => pure (targetManagers ++ [fileTargetManager])
     end
   else if decide (target = JournalScrapeConfigs) then
     let! r := call (journal_NewJournalTargetManager reg logger positions
                       client scrapeConfigs)
                    (env_journal E positions scrapeConfigs) in
     match r with
     | inl err => Return (None, Some (Wrap err "failed to make journal target manager"))
     | inr journalTargetManager => pure (targetManagers ++ [journalTargetManager])
     end
   else if decide (target = SyslogScrapeConfigs) then
     let! r := call (syslog_NewSyslogTargetManager syslogMetrics logger
                       client scrapeConfigs)
                    (env_syslog E syslogMetrics scrapeConfigs) in
     match r with
     | inl err => Return (None, Some (Wrap err "failed to make syslog target manager"))
     | inr syslogTargetManager => pure (targetManagers ++ [syslogTargetManager])
     end
   else if decide (target = GcplogScrapeConfigs) then
     let! r := call (gcplog_NewGcplogTargetManager gcplogMetrics logger
                       client scrapeConfigs)
                    (env_gcplog E gcplogMetrics scrapeConfigs) in
     match r with
     | inl err => Return (None, Some (Wrap err "failed to make syslog target manager"))
     | inr pubsubTargetManager => pure (targetManagers ++ [pubsubTargetManager])
     end
   else if decide (target = PushScrapeConfigs) then
     let! r := call (lokipush_NewPushTargetManager reg logger client scrapeConfigs)
                    (env_push E scrapeConfigs) in
     match r with
     | inl err =>
         Return (None, Some (Wrap err "failed to make Loki Push API target manager"))
     | inr pushTargetManager => pure (targetManagers ++ [pushTargetManager])
     end
   else Return (None, Some (New "unknown scrape config")))%proc.

(** Lines 102-165, over the entries in the order the iteration yields. *)
Fixpoint build_loop (entries : list (string * list Config))
    (targetManagers : list targetManager) : Proc Result (list targetManager) :=
  match entries with
  | [] => pure targetManagers
  | (target, scrapeConfigs) :: rest =>
      (let! targetManagers := build_one target scrapeConfigs targetManagers in
       build_loop rest targetManagers)%proc
  end.
End construction.

Definition NewTargetManagers (range : RangeOrder) (E : Env)
    (app : Shutdownable) (reg : Registerer) (logger : Logger)
    (positionsConfig : positions.Config) (client : EntryHandler)
    (scrapeConfigs : list Config) (targetConfig : file.Config)
    : Proc Result Result :=
  (let targetManagers : list targetManager := [] in
   let targetScrapeConfigs : gmap string (list Config) := ∅ in
   if file.Stdin targetConfig then
     let! _ := call (Log_Debug logger "configured to read from stdin") tt in
     let! r := call (stdin_NewStdinTargetManager reg logger app client scrapeConfigs)
                    (env_stdin E scrapeConfigs) in
     match r with
     | inl err => Return (None, Some err)
     | inr stdin =>
         let targetManagers := targetManagers ++ [stdin] in
         Return (Some {| targetManagers := targetManagers; positions := None |}, None)
     end
   else
     let! r := call (positions_New logger positionsConfig)
                    (env_positions E positionsConfig) in
     match r with
     | inl err => Return (None, Some err)
     | inr positions =>
         let! targetScrapeConfigs := classify_loop scrapeConfigs targetScrapeConfigs in
         let! fileMetrics :=
           if (0 <? length (targetScrapeConfigs !!! FileScrapeConfigs))%nat
           then call (file_NewMetrics reg) (Some {| file.reg := reg |})
           else pure None in
         let! syslogMetrics :=
           if (0 <? length (targetScrapeConfigs !!! SyslogScrapeConfigs))%nat
           then call (syslog_NewMetrics reg) (Some {| syslog.reg := reg |})
           else pure None in
         let! gcplogMetrics :=
           if (0 <? length (targetScrapeConfigs !!! GcplogScrapeConfigs))%nat
           then call (gcplog_NewMetrics reg) (Some {| gcplog.reg := reg |})
           else pure None in
         let! targetManagers :=
           build_loop E reg logger client targetConfig
             fileMetrics syslogMetrics gcplogMetrics positions
             (range _ targetScrapeConfigs) targetManagers in
         Return (Some {| targetManagers := targetManagers;
                         positions := Some positions |}, None)
     end)%proc.

(** One call of [NewTargetManagers] from an empty trace: what it returns and
    the calls it made. *)
Definition construct (range : RangeOrder) (E : Env)
    (app : Shutdownable) (reg : Registerer) (logger : Logger)
    (positionsConfig : positions.Config) (client : EntryHandler)
    (scrapeConfigs : list Config) (targetConfig : file.Config)
    : Result * Trace :=
  run (NewTargetManagers range E app reg logger positionsConfig client
         scrapeConfigs targetConfig) [].

(** ** The methods of TargetManagers *)

(** [result[job] = append(result[job], targets...)]. *)
Definition merge_job (result : gmap string (list Target))
    (entry : string * list Target) : gmap string (list Target) :=
  <[entry.1 := (result !!! entry.1) ++ entry.2]> result.

Definition merge_targets (range : RangeOrder)
    (targets_of : targetManager -> gmap string (list Target))
    (tms : list targetManager) : gmap string (list Target) :=
  foldl (fun result t => foldl merge_job result (range _ (targets_of t))) ∅ tms.

Definition ActiveTargets (range : RangeOrder) (tm : TargetManagers)
    : gmap string (list Target) :=
  merge_targets range t_ActiveTargets (targetManagers tm).

Definition AllTargets (range : RangeOrder) (tm : TargetManagers)
    : gmap string (list Target) :=
  merge_targets range t_AllTargets (targetManagers tm).

(** Lines 198-203: the first ready backend ends the loop with [true]. *)
Fixpoint Ready_loop (tms : list targetManager) : bool :=
  match tms with
  | [] => false
  | t :: rest => if t_Ready t then true else Ready_loop rest
  end.

Definition Ready (tm : TargetManagers) : bool := Ready_loop (targetManagers tm).

Fixpoint Stop_loop (tms : list targetManager) : Proc unit unit :=
  match tms with
  | [] => pure tt
  | t :: rest => (let! _ := call (targetManager_Stop t) tt in Stop_loop rest)%proc
  end.

Definition Stop (tm : TargetManagers) : Proc unit unit :=
  (let! _ := Stop_loop (targetManagers tm) in
   match positions tm with
   | Some p => call (positions_Stop p) tt
   | None => pure tt
   end)%proc.

(** ** Sample inputs *)

Definition mkConfig (job : string) (sd : bool) (j s g p : option string) : Config :=
  {| JobName := job; HasServiceDiscoveryConfig := sd; JournalConfig := j;
     SyslogConfig := s; GcplogConfig := g; PushConfig := p |}.

Definition cfg_file : Config := mkConfig "varlogs" true None None None None.
Definition cfg_file2 : Config := mkConfig "applogs" true None None None None.
Definition cfg_journal : Config := mkConfig "journal" false (Some "j") None None None.
Definition cfg_syslog : Config := mkConfig "syslog" false None (Some "s") None None.
Definition cfg_gcplog : Config := mkConfig "gcplog" false None None (Some "g") None.
Definition cfg_push : Config := mkConfig "push" false None None None (Some "p").
Definition cfg_unknown : Config := mkConfig "nothing" false None None None None.

Definition backend (name : string) (ready : bool)
    (targets : list (string * list Target)) : targetManager :=
  {| handle := name; t_Ready := ready;
     t_ActiveTargets := list_to_map targets;
     t_AllTargets := list_to_map targets |}.

Definition pos0 : positions.Positions := {| positions.positions_file := "/tmp/positions.yaml" |}.

(** Every constructor succeeds. *)
Definition env_ok : Env :=
  {| env_stdin := fun _ => inr (backend "stdin" true []);
     env_positions := fun _ => inr pos0;
     env_file := fun _ _ _ _ => inr (backend "file" true [("varlogs", ["/var/log/a"])]);
     env_journal := fun _ _ => inr (backend "journal" false []);
     env_syslog := fun _ _ => inr (backend "syslog" false []);
     env_gcplog := fun _ _ => inr (backend "gcplog" false []);
     env_push := fun _ => inr (backend "push" false []) |}.

(** The pub/sub constructor fails, everything else succeeds. *)
Definition env_gcplog_fails : Env :=
  {| env_stdin := env_stdin env_ok;
     env_positions := env_positions env_ok;
     env_file := env_file env_ok;
     env_journal := env_journal env_ok;
     env_syslog := env_syslog env_ok;
     env_gcplog := fun _ _ => inl (New "no credentials");
     env_push := env_push env_ok |}.

(** The position store cannot be opened. *)
Definition env_positions_fails : Env :=
  {| env_stdin := env_stdin env_ok;
     env_positions := fun _ => inl (New "positions file unwritable");
     env_file := env_file env_ok;
     env_journal := env_journal env_ok;
     env_syslog := env_syslog env_ok;
     env_gcplog := env_gcplog env_ok;
     env_push := env_push env_ok |}.

(** One admissible iteration order: the map's own listing. *)
Definition range_listing : RangeOrder := fun A m => map_to_list m.

Definition no_stdin : file.Config := {| file.Stdin := false; file.SyncPeriod := 10 |}.
Definition with_stdin : file.Config := {| file.Stdin := true; file.SyncPeriod := 10 |}.

(** Two backends reporting under the same job name, and a manager over
    them with a position store. *)
Definition backend_A : targetManager := backend "A" false [("x", ["t1"])].
Definition backend_B : targetManager := backend "B" true [("x", ["t2"]); ("y", ["t3"])].
Definition manager_AB : TargetManagers :=
  {| targetManagers := [backend_A; backend_B]; positions := Some pos0 |}.

(** ** Reading a trace *)

(** The kind and the group a backend constructor was called with. *)
Definition backend_call (e : Event) : option (string * list Config) :=
  match e with
  | file_NewFileTargetManager _ _ _ _ g _ => Some (FileScrapeConfigs, g)
  | journal_NewJournalTargetManager _ _ _ _ g => Some (JournalScrapeConfigs, g)
  | syslog_NewSyslogTargetManager _ _ _ g => Some (SyslogScrapeConfigs, g)
  | gcplog_NewGcplogTargetManager _ _ _ g => Some (GcplogScrapeConfigs, g)
  | lokipush_NewPushTargetManager _ _ _ g => Some (PushScrapeConfigs, g)
  | _ => None
  end.

(** Any call that builds a backend, the single-stream one included. *)
Definition constructs_backend (e : Event) : bool :=
  match e with
  | stdin_NewStdinTargetManager _ _ _ _ _ => true
  | _ => bool_decide (backend_call e <> None)
  end.

(** The kind whose metrics registry a call creates. *)
Definition metrics_call (e : Event) : option string :=
  match e with
  | file_NewMetrics _ => Some FileScrapeConfigs
  | syslog_NewMetrics _ => Some SyslogScrapeConfigs
  | gcplog_NewMetrics _ => Some GcplogScrapeConfigs
  | _ => None
  end.

Definition registry_created (kind : string) (tr : Trace) : Prop :=
  exists e, e ∈ tr /\ metrics_call e = Some kind.

(** The backend a call stops. *)
Definition stopped_backend (e : Event) : option targetManager :=
  match e with targetManager_Stop t => Some t | _ => None end.

(** The registries created between classification and the backend loop
    (lines 92-100), as calls and as the values handed on. *)
Definition needs_registry (kind : string) (m : gmap string (list Config)) : bool :=
  (0 <? length (m !!! kind))%nat.

Definition provision_events (reg : Registerer) (m : gmap string (list Config))
    : Trace :=
  (if needs_registry FileScrapeConfigs m then [file_NewMetrics reg] else []) ++
  (if needs_registry SyslogScrapeConfigs m then [syslog_NewMetrics reg] else []) ++
  (if needs_registry GcplogScrapeConfigs m then [gcplog_NewMetrics reg] else []).

Definition creates_position_store (e : Event) : bool :=
  match e with positions_New _ _ => true | _ => false end.

Definition closes_position_store (e : Event) : bool :=
  match e with positions_Stop _ => true | _ => false end.

(** ** The classifier in the words of the specification

    An ordered set of predicates; a config goes to the group of the first
    one that holds. *)
Definition priority : list (string * (Config -> bool)) :=
  [ (FileScrapeConfigs, HasServiceDiscoveryConfig);
    (JournalScrapeConfigs, fun cfg => bool_decide (is_Some (JournalConfig cfg)));
    (SyslogScrapeConfigs, fun cfg => bool_decide (is_Some (SyslogConfig cfg)));
    (GcplogScrapeConfigs, fun cfg => bool_decide (is_Some (GcplogConfig cfg)));
    (PushScrapeConfigs, fun cfg => bool_decide (is_Some (PushConfig cfg))) ].

Definition first_match (cfg : Config) : option string :=
  fst <$> List.find (fun p => p.2 cfg) priority.

Definition group (kind : string) (scrapeConfigs : list Config) : list Config :=
  filter (fun cfg => first_match cfg = Some kind) scrapeConfigs.

Definition kinds_with_registry : list string :=
  [FileScrapeConfigs; SyslogScrapeConfigs; GcplogScrapeConfigs].

(** ** Three sentences of the specification, as they are written

    They are stated about one run of [NewTargetManagers] outside the
    single-stream mode, with result [res] and trace [tr]. *)


(** A registry is created exactly for the kinds that need one and have a
    non-empty group. *)
Definition registry_sentence (scrapeConfigs : list Config) (tr : Trace) : Prop :=
  forall kind,
    registry_created kind tr <->
    group kind scrapeConfigs <> [] /\ kind ∈ kinds_with_registry.

(** Classification comes before the position store: an unrecognized config
    fails construction with no position store created. *)
Definition classify_first_sentence (scrapeConfigs : list Config)
    (res : Result) (tr : Trace) : Prop :=
  (exists cfg, cfg ∈ scrapeConfigs /\ first_match cfg = None) ->
  res = (None, Some (New "unknown scrape config")) /\
  forall e, e ∈ tr -> creates_position_store e = false.

(** ** The backend loop, case by case *)

Definition kinds : list string :=
  [FileScrapeConfigs; JournalScrapeConfigs; SyslogScrapeConfigs;
   GcplogScrapeConfigs; PushScrapeConfigs].

(** The message each case wraps its constructor's error with (lines 114,
    126, 137, 148 and 159). *)
Definition wrap_message (target : string) : string :=
  if decide (target = FileScrapeConfigs) then "failed to make file target manager"
  else if decide (target = JournalScrapeConfigs)
  then "failed to make journal target manager"
  else if decide (target = SyslogScrapeConfigs)
  then "failed to make syslog target manager"
  else if decide (target = GcplogScrapeConfigs)
  then "failed to make syslog target manager"
  else "failed to make Loki Push API target manager".

(** The call a case of the loop makes for an entry, with the answer it
    gets; [None] for a key that has no case. *)
Definition constructor_call (E : Env) (reg : Registerer) (logger : Logger)
    (client : EntryHandler) (targetConfig : file.Config)
    (fileMetrics : option file.Metrics) (syslogMetrics : option syslog.Metrics)
    (gcplogMetrics : option gcplog.Metrics) (p : positions.Positions)
    (target : string) (g : list Config)
    : option (Event * (error + targetManager)) :=
  if decide (target = FileScrapeConfigs) then
    Some (file_NewFileTargetManager fileMetrics logger p client g targetConfig,
          env_file E fileMetrics p g targetConfig)
  else if decide (target = JournalScrapeConfigs) then
    Some (journal_NewJournalTargetManager reg logger p client g,
          env_journal E p g)
  else if decide (target = SyslogScrapeConfigs) then
    Some (syslog_NewSyslogTargetManager syslogMetrics logger client g,
          env_syslog E syslogMetrics g)
  else if decide (target = GcplogScrapeConfigs) then
    Some (gcplog_NewGcplogTargetManager gcplogMetrics logger client g,
          env_gcplog E gcplogMetrics g)
  else if decide (target = PushScrapeConfigs) then
    Some (lokipush_NewPushTargetManager reg logger client g, env_push E g)
  else None.

(** The same, with the three registries created. *)
Definition provisioned_call (E : Env) (reg : Registerer) (logger : Logger)
    (client : EntryHandler) (targetConfig : file.Config)
    (p : positions.Positions) (target : string) (g : list Config)
    : option (Event * (error + targetManager)) :=
  constructor_call E reg logger client targetConfig
    (Some {| file.reg := reg |}) (Some {| syslog.reg := reg |})
    (Some {| gcplog.reg := reg |}) p target g.

Definition call_event (c : string -> list Config ->
                           option (Event * (error + targetManager)))
    (kg : string * list Config) : option Event :=
  fst <$> c kg.1 kg.2.

Definition call_backend (c : string -> list Config ->
                             option (Event * (error + targetManager)))
    (kg : string * list Config) : option targetManager :=
  match c kg.1 kg.2 with
  | Some (_, inr t) => Some t
  | _ => None
  end.

(** The entries of the map of groups, for a list of configs: the kinds with
    a non-empty group, each with its group. *)
Definition group_entries (scrapeConfigs : list Config) : list (string * list Config) :=
  filter (fun kg => kg.2 <> [])
    (map (fun kind => (kind, group kind scrapeConfigs)) kinds).

Definition nothing_populated (cfg : Config) : Prop :=
  HasServiceDiscoveryConfig cfg = false /\ JournalConfig cfg = None /\
  SyslogConfig cfg = None /\ GcplogConfig cfg = None /\ PushConfig cfg = None.

(** What a backend constructor call must carry when the registerer is
    [reg] and the position store is [p]: the kind's registry, created, and
    that store. *)
Definition well_provisioned (reg : Registerer) (p : positions.Positions)
    (e : Event) : Prop :=
  match e with
  | file_NewFileTargetManager metrics _ p' _ _ _ =>
      metrics = Some {| file.reg := reg |} /\ p' = p
  | journal_NewJournalTargetManager _ _ p' _ _ => p' = p
  | syslog_NewSyslogTargetManager metrics _ _ _ =>
      metrics = Some {| syslog.reg := reg |}
  | gcplog_NewGcplogTargetManager metrics _ _ _ =>
      metrics = Some {| gcplog.reg := reg |}
  | _ => True
  end.

(** The constructors answer a call of one run alike in another: [E1] holds
    the answers of the first run, [E2] those of the second.  Calls that
    return no error are alike. *)
Definition same_answer (E1 E2 : Env) (e : Event) : Prop :=
  match e with
  | stdin_NewStdinTargetManager _ _ _ _ g => env_stdin E2 g = env_stdin E1 g
  | positions_New _ cfg => env_positions E2 cfg = env_positions E1 cfg
  | file_NewFileTargetManager metrics _ p _ g targetConfig =>
      env_file E2 metrics p g targetConfig = env_file E1 metrics p g targetConfig
  | journal_NewJournalTargetManager _ _ p _ g =>
      env_journal E2 p g = env_journal E1 p g
  | syslog_NewSyslogTargetManager metrics _ _ g =>
      env_syslog E2 metrics g = env_syslog E1 metrics g
  | gcplog_NewGcplogTargetManager metrics _ _ g =>
      env_gcplog E2 metrics g = env_gcplog E1 metrics g
  | lokipush_NewPushTargetManager _ _ _ g => env_push E2 g = env_push E1 g
  | _ => True
  end.

(** * Proofs *)

(** ** Procedures *)

Lemma bind_call {R A B} (e : Event) (a : A) (k : A -> Proc R B) tr :
  bind (call e a) k tr = k a (tr ++ [e]).
Proof. reflexivity. Qed.

Lemma bind_pure {R A B} (a : A) (k : A -> Proc R B) tr :
  bind (pure a) k tr = k a tr.
Proof. reflexivity. Qed.

Lemma bind_Return {R A B} (r : R) (k : A -> Proc R B) tr :
  bind (Return r) k tr = (inl r, tr).
Proof. reflexivity. Qed.

(** ** The classifier *)

Lemma switch_case_first_match cfg : switch_case cfg = first_match cfg.
Proof.
  unfold switch_case, first_match, priority. simpl.
  destruct (HasServiceDiscoveryConfig cfg); [done|].
  destruct (JournalConfig cfg); simpl; [done|].
  destruct (SyslogConfig cfg); simpl; [done|].
  destruct (GcplogConfig cfg); simpl; [done|].
  destruct (PushConfig cfg); simpl; done.
Qed.

Lemma group_cons kind cfg rest :
  group kind (cfg :: rest) =
  if decide (first_match cfg = Some kind) then cfg :: group kind rest
  else group kind rest.
Proof. unfold group. rewrite filter_cons. done. Qed.

Lemma classify_loop_unknown cfgs m tr :
  (exists cfg, cfg ∈ cfgs /\ first_match cfg = None) ->
  classify_loop cfgs m tr = (inl (None, Some (New "unknown scrape config")), tr).
Proof.
  revert m. induction cfgs as [|c rest IH]; intros m [cfg [Hin Hnone]].
  - by apply elem_of_nil in Hin.
  - simpl. destruct (switch_case c) as [key|] eqn:Hc; [|done].
    apply IH. exists cfg. split; [|done].
    apply elem_of_cons in Hin as [->|Hin]; [|done].
    rewrite switch_case_first_match in Hc. congruence.
Qed.

Lemma classify_loop_known cfgs m tr :
  Forall (fun cfg => is_Some (first_match cfg)) cfgs ->
  exists m',
    classify_loop cfgs m tr = (inr m', tr) /\
    forall kind,
      m' !! kind =
      if decide (group kind cfgs = []) then m !! kind
      else Some (m !!! kind ++ group kind cfgs).
Proof.
  revert m. induction cfgs as [|c rest IH]; intros m Hall.
  - exists m. split; [done|]. intros kind. by rewrite decide_True.
  - apply Forall_cons in Hall as [[key Hkey] Hall]. simpl.
    rewrite switch_case_first_match, Hkey.
    destruct (IH (append_to key c m) Hall) as (m' & Hrun & Hm').
    exists m'. split; [done|]. intros kind. rewrite Hm', group_cons.
    unfold append_to. destruct (decide (kind = key)) as [->|Hne].
    + destruct (decide (first_match c = Some key)) as [_|]; [|done].
      rewrite lookup_insert_eq, lookup_total_insert_eq.
      destruct (decide (c :: group key rest = [])); [done|].
      destruct (decide (group key rest = [])) as [->|_]; [done|].
      by rewrite <- app_assoc.
    + destruct (decide (first_match c = Some kind)); [congruence|].
      by rewrite lookup_insert_ne, lookup_total_insert_ne.
Qed.

Lemma classify_loop_cases cfgs m tr :
  classify_loop cfgs m tr = (inl (None, Some (New "unknown scrape config")), tr) \/
  exists m', classify_loop cfgs m tr = (inr m', tr).
Proof.
  revert m. induction cfgs as [|c rest IH]; intros m; simpl.
  - right. by exists m.
  - destruct (switch_case c); [apply IH | by left].
Qed.

(** ** The backend loop *)

Section backend_loop.
Variable E : Env.
Variables (reg : Registerer) (logger : Logger) (client : EntryHandler).
Variable targetConfig : file.Config.
Variable fileMetrics : option file.Metrics.
Variable syslogMetrics : option syslog.Metrics.
Variable gcplogMetrics : option gcplog.Metrics.
Variable p : positions.Positions.

Let one := build_one E reg logger client targetConfig
             fileMetrics syslogMetrics gcplogMetrics p.
Let loop := build_loop E reg logger client targetConfig
              fileMetrics syslogMetrics gcplogMetrics p.

(** One entry: at most one call, to the constructor of the entry's kind
    with the entry's group; an early return carries a nil manager. *)
Lemma build_one_spec target g tms tr :
  exists out evs,
    one target g tms tr = (out, tr ++ evs) /\
    Forall (fun e => backend_call e = Some (target, g)) evs /\
    match out with
    | inl r => exists err, r = (None, Some err)
    | inr tms' => exists t e, tms' = tms ++ [t] /\ evs = [e]
    end.
Proof.
  unfold one, build_one.
  repeat case_decide; subst;
    try (rewrite bind_call;
         match goal with
         | |- context [match ?r with inl _ => _ | inr _ => _ end] =>
             destruct r as [err|t]
         end;
         (eexists _, [_]; split; [reflexivity|];
          split; [by repeat constructor | by repeat eexists])).
  exists (inl (None, Some (New "unknown scrape config"))), [].
  rewrite app_nil_r. split; [done|]. split; [constructor | by eexists].
Qed.

Lemma build_loop_spec l tms tr :
  exists out evs,
    loop l tms tr = (out, tr ++ evs) /\
    Forall (fun e => exists kg, kg ∈ l /\ backend_call e = Some kg) evs /\
    match out with
    | inl r => exists err, r = (None, Some err)
    | inr tms' =>
        Forall2 (fun e kg => backend_call e = Some kg) evs l /\
        length tms' = length tms + length l
    end.
Proof.
  revert tms tr. induction l as [|[target g] rest IH]; intros tms tr.
  - exists (inr tms), []. rewrite app_nil_r. simpl.
    repeat split; [constructor | constructor | lia].
  - destruct (build_one_spec target g tms tr) as (out1 & evs1 & H1 & Hev1 & Hout1).
    unfold loop in *. simpl. unfold bind. fold one. rewrite H1.
    destruct out1 as [r|tms1].
    + exists (inl r), evs1. split; [done|]. split; [|done].
      eapply Forall_impl; [exact Hev1|]. intros e He.
      exists (target, g). split; [left | done].
    + destruct Hout1 as (t & e & -> & ->).
      destruct (IH (tms ++ [t]) (tr ++ [e])) as (out & evs & H2 & Hev2 & Hout2).
      exists out, (e :: evs). rewrite H2.
      split; [by rewrite <- app_assoc|].
      rewrite Forall_singleton in Hev1. split.
      * constructor; [exists (target, g); split; [left | done]|].
        eapply Forall_impl; [exact Hev2|].
        intros e' (kg & Hin & He'). exists kg. split; [by right | done].
      * destruct out as [r|tms']; [done|].
        destruct Hout2 as [HF Hlen]. split; [by constructor|].
        rewrite Hlen, length_app. simpl. lia.
Qed.
End backend_loop.

(** ** The paths through NewTargetManagers *)

Section paths.
Variables (range : RangeOrder) (E : Env).
Variables (app : Shutdownable) (reg : Registerer) (logger : Logger).
Variables (positionsConfig : positions.Config) (client : EntryHandler).
Variables (scrapeConfigs : list Config) (targetConfig : file.Config).

Let outcome :=
  construct range E app reg logger positionsConfig client
    scrapeConfigs targetConfig.

Lemma path_stdin :
  file.Stdin targetConfig = true ->
  outcome =
  (match env_stdin E scrapeConfigs with
   | inl err => (None, Some err)
   | inr stdin => (Some {| targetManagers := [stdin]; positions := None |}, None)
   end,
   [Log_Debug logger "configured to read from stdin";
    stdin_NewStdinTargetManager reg logger app client scrapeConfigs]).
Proof.
  intros Hstdin. unfold outcome, construct, NewTargetManagers, run. rewrite Hstdin.
  rewrite !bind_call. by destruct (env_stdin E scrapeConfigs).
Qed.

Lemma path_positions_error err :
  file.Stdin targetConfig = false ->
  env_positions E positionsConfig = inl err ->
  outcome = ((None, Some err), [positions_New logger positionsConfig]).
Proof.
  intros Hstdin Hpos. unfold outcome, construct, NewTargetManagers, run.
  by rewrite Hstdin, bind_call, Hpos.
Qed.

Lemma path_unknown p :
  file.Stdin targetConfig = false ->
  env_positions E positionsConfig = inr p ->
  (exists cfg, cfg ∈ scrapeConfigs /\ first_match cfg = None) ->
  outcome =
  ((None, Some (New "unknown scrape config")),
   [positions_New logger positionsConfig]).
Proof.
  intros Hstdin Hpos Hun. unfold outcome, construct, NewTargetManagers, run.
  rewrite Hstdin, bind_call, Hpos. unfold bind at 1.
  by rewrite (classify_loop_unknown _ _ _ Hun).
Qed.

Lemma path_classified p m :
  file.Stdin targetConfig = false ->
  env_positions E positionsConfig = inr p ->
  classify_loop scrapeConfigs ∅ [positions_New logger positionsConfig] =
    (inr m, [positions_New logger positionsConfig]) ->
  outcome =
  match
    build_loop E reg logger client targetConfig
      (if needs_registry FileScrapeConfigs m
       then Some {| file.reg := reg |} else None)
      (if needs_registry SyslogScrapeConfigs m
       then Some {| syslog.reg := reg |} else None)
      (if needs_registry GcplogScrapeConfigs m
       then Some {| gcplog.reg := reg |} else None)
      p (range _ m) []
      (positions_New logger positionsConfig :: provision_events reg m)
  with
  | (inl r, tr) => (r, tr)
  | (inr tms, tr) =>
      ((Some {| targetManagers := tms; positions := Some p |}, None), tr)
  end.
Proof.
  intros Hstdin Hpos Hcl. unfold outcome, construct, NewTargetManagers, run.
  rewrite Hstdin, bind_call, Hpos. unfold bind at 1. cbn [Datatypes.app]. rewrite Hcl.
  unfold provision_events, needs_registry.
  destruct (0 <? length (m !!! FileScrapeConfigs))%nat;
    destruct (0 <? length (m !!! SyslogScrapeConfigs))%nat;
    destruct (0 <? length (m !!! GcplogScrapeConfigs))%nat;
    cbv beta iota delta [bind call pure Return]; cbn [Datatypes.app];
    match goal with
    | |- context [build_loop ?a ?b ?c ?d ?e ?f ?g ?h ?i ?j ?k ?l] =>
        destruct (build_loop a b c d e f g h i j k l) as [[r|tms] tr]
    end; reflexivity.
Qed.

(** Every run outside the single-stream mode in which the position store
    opens and every config is recognized. *)
Lemma path_built p :
  file.Stdin targetConfig = false ->
  env_positions E positionsConfig = inr p ->
  Forall (fun cfg => is_Some (first_match cfg)) scrapeConfigs ->
  exists m out evs,
    (forall kind,
       m !! kind =
       if decide (group kind scrapeConfigs = []) then None
       else Some (group kind scrapeConfigs)) /\
    Forall (fun e => exists kg, kg ∈ range _ m /\ backend_call e = Some kg) evs /\
    outcome.2 =
      positions_New logger positionsConfig :: provision_events reg m ++ evs /\
    match out with
    | inl err => outcome.1 = (None, Some err)
    | inr tms =>
        outcome.1 =
          (Some {| targetManagers := tms; positions := Some p |}, None) /\
        Forall2 (fun e kg => backend_call e = Some kg) evs (range _ m) /\
        length tms = length (range _ m)
    end.
Proof.
  intros Hstdin Hpos Hknown.
  destruct (classify_loop_known scrapeConfigs ∅
              [positions_New logger positionsConfig] Hknown) as (m & Hcl & Hm).
  rewrite (path_classified p m Hstdin Hpos Hcl).
  match goal with
  | |- context [build_loop ?a ?b ?c ?d ?e ?f ?g ?h ?i ?j ?k ?l] =>
      destruct (build_loop_spec a b c d e f g h i j k l)
        as (out & evs & Hrun & Hev & Hout); rewrite Hrun
  end.
  exists m.
  assert (Hm' : forall kind,
             m !! kind =
             if decide (group kind scrapeConfigs = []) then None
             else Some (group kind scrapeConfigs)).
  { intros kind. rewrite Hm, lookup_empty, lookup_total_empty.
    by destruct (decide _). }
  destruct out as [r|tms].
  - destruct Hout as [err ->]. exists (inl err), evs. by repeat split.
  - destruct Hout as [HF Hlen]. exists (inr tms), evs. by repeat split.
Qed.
End paths.

(** ** Iteration order *)

Lemma range_lookup {A} (range : RangeOrder) (m : gmap string A) k x :
  range_valid range -> (k, x) ∈ range A m <-> m !! k = Some x.
Proof. intros Hr. by rewrite (Hr A m), elem_of_map_to_list. Qed.

Lemma range_singleton {A} (range : RangeOrder) (m : gmap string A) k x :
  range_valid range -> (forall j, m !! j = if decide (j = k) then Some x else None) ->
  range A m = [(k, x)].
Proof.
  intros Hr Hm. apply Permutation_singleton_r. rewrite (Hr A m).
  assert (m = {[k := x]}) as ->; [|by rewrite map_to_list_singleton].
  apply map_eq. intros j. rewrite Hm, lookup_singleton. by repeat case_decide.
Qed.

(** ** Stop *)

Lemma Stop_loop_trace tms tr :
  Stop_loop tms tr = (inr tt, tr ++ map targetManager_Stop tms).
Proof.
  revert tr. induction tms as [|t rest IH]; intros tr; simpl.
  - by rewrite app_nil_r.
  - rewrite bind_call, IH. by rewrite <- app_assoc.
Qed.

Lemma Stop_trace tm tr :
  run (Stop tm) tr =
  (tt, tr ++ map targetManager_Stop (targetManagers tm) ++
       match positions tm with Some p => [positions_Stop p] | None => [] end).
Proof.
  unfold Stop, run, bind. rewrite Stop_loop_trace.
  destruct (positions tm); unfold call, pure.
  - by rewrite <- app_assoc.
  - by rewrite app_nil_r.
Qed.

Lemma omap_stopped_backend tms :
  omap stopped_backend (map targetManager_Stop tms) = tms.
Proof. induction tms as [|t rest IH]; [done|]. simpl. f_equal. exact IH. Qed.

(** ** Ready *)

Lemma Ready_loop_true tms :
  Ready_loop tms = true <-> exists t, t ∈ tms /\ t_Ready t = true.
Proof.
  induction tms as [|t rest IH]; simpl.
  - split; [done|]. intros (t & Hin & _). by apply elem_of_nil in Hin.
  - destruct (t_Ready t) eqn:Ht.
    + split; [|done]. intros _. exists t. split; [left | done].
    + rewrite IH. split.
      * intros (t' & Hin & Hr). exists t'. split; [by right | done].
      * intros (t' & Hin & Hr). apply elem_of_cons in Hin as [->|Hin].
        -- congruence.
        -- by exists t'.
Qed.

(** ** Merging target inventories *)

Lemma merge_entries_NoDup (l : list (string * list Target)) acc job :
  NoDup l.*1 ->
  foldl merge_job acc l !! job =
  match (list_to_map l : gmap string (list Target)) !! job with
  | Some ts => Some (acc !!! job ++ ts)
  | None => acc !! job
  end.
Proof.
  revert acc. induction l as [|[k ts] rest IH]; intros acc Hnd; simpl.
  - by rewrite lookup_empty.
  - apply NoDup_cons in Hnd as [Hk Hnd]. rewrite (IH _ Hnd).
    unfold merge_job. simpl. destruct (decide (job = k)) as [->|Hne].
    + rewrite (not_elem_of_list_to_map_1 _ _ Hk).
      by rewrite !lookup_insert_eq.
    + rewrite (lookup_insert_ne (list_to_map rest)) by done.
      by rewrite lookup_insert_ne, lookup_total_insert_ne.
Qed.

Lemma merge_entries (range : RangeOrder) (m : gmap string (list Target)) acc job :
  range_valid range ->
  foldl merge_job acc (range _ m) !! job =
  match m !! job with
  | Some ts => Some (acc !!! job ++ ts)
  | None => acc !! job
  end.
Proof.
  intros Hr.
  assert (Hnd : NoDup (range _ m).*1).
  { rewrite (Hr _ m). apply NoDup_fst_map_to_list. }
  rewrite (merge_entries_NoDup _ _ _ Hnd).
  assert ((list_to_map (range _ m) : gmap string (list Target)) = m) as ->; [|done].
  rewrite <- (list_to_map_to_list m) at 2.
  apply list_to_map_proper; [done | apply Hr].
Qed.

Section merge.
Variable range : RangeOrder.
Hypothesis range_ok : range_valid range.
Variable targets_of : targetManager -> gmap string (list Target).

Let step (result : gmap string (list Target)) (t : targetManager) :=
  foldl merge_job result (range _ (targets_of t)).

Lemma step_total acc t job :
  step acc t !!! job = acc !!! job ++ targets_of t !!! job.
Proof.
  unfold step. rewrite !lookup_total_alt, merge_entries by done.
  destruct (targets_of t !! job); simpl; [done|].
  by rewrite app_nil_r.
Qed.

Lemma step_is_Some acc t job :
  is_Some (step acc t !! job) <->
  is_Some (acc !! job) \/ is_Some (targets_of t !! job).
Proof.
  unfold step. rewrite merge_entries by done.
  destruct (targets_of t !! job); split; eauto.
  intros [H|[? ?]]; [done | discriminate].
Qed.

Lemma merge_fold_total tms acc job :
  foldl step acc tms !!! job =
  acc !!! job ++ concat (map (fun t => targets_of t !!! job) tms).
Proof.
  revert acc. induction tms as [|t rest IH]; intros acc; simpl.
  - by rewrite app_nil_r.
  - by rewrite IH, step_total, <- app_assoc.
Qed.

Lemma merge_fold_is_Some tms acc job :
  is_Some (foldl step acc tms !! job) <->
  is_Some (acc !! job) \/ exists t, t ∈ tms /\ is_Some (targets_of t !! job).
Proof.
  revert acc. induction tms as [|t rest IH]; intros acc; simpl.
  - split; [by left|]. intros [H|(t & Hin & _)]; [done|].
    by apply elem_of_nil in Hin.
  - rewrite IH, step_is_Some. split.
    + intros [[H|H]|(t' & Hin & H)].
      * by left.
      * right. exists t. split; [left | done].
      * right. exists t'. split; [by right | done].
    + intros [H|(t' & Hin & H)].
      * by left; left.
      * apply elem_of_cons in Hin as [->|Hin]; [by left; right|].
        right. by exists t'.
Qed.

Lemma merge_targets_total tms job :
  merge_targets range targets_of tms !!! job =
  concat (map (fun t => targets_of t !!! job) tms).
Proof.
  unfold merge_targets. fold step.
  by rewrite merge_fold_total, lookup_total_empty.
Qed.

Lemma merge_targets_is_Some tms job :
  is_Some (merge_targets range targets_of tms !! job) <->
  exists t, t ∈ tms /\ is_Some (targets_of t !! job).
Proof.
  unfold merge_targets. fold step. rewrite merge_fold_is_Some, lookup_empty.
  split; [|by right]. intros [[? ?]|H]; [discriminate | done].
Qed.
End merge.

(** ** Registries and groups *)

Lemma provision_events_inert reg m e :
  e ∈ provision_events reg m ->
  backend_call e = None /\ constructs_backend e = false /\
  creates_position_store e = false.
Proof.
  unfold provision_events. rewrite !elem_of_app.
  intros [H|[H|H]]; destruct (needs_registry _ m);
    try (by apply elem_of_nil in H);
    apply list_elem_of_singleton in H; by subst e.
Qed.

Lemma provision_events_registry reg m kind :
  registry_created kind (provision_events reg m) <->
  kind ∈ kinds_with_registry /\ needs_registry kind m = true.
Proof.
  unfold registry_created, provision_events, kinds_with_registry. split.
  - intros (e & Hin & He). rewrite !elem_of_app in Hin.
    destruct Hin as [H|[H|H]];
      match type of H with
      | _ ∈ (if ?b then _ else _) => destruct b eqn:Hb
      end;
      try (by apply elem_of_nil in H);
      apply list_elem_of_singleton in H; subst e;
      injection He as <-; (split; [|done]);
      rewrite !elem_of_cons; auto.
  - rewrite !elem_of_cons, elem_of_nil.
    intros [[->|[->|[->|[]]]] Hn]; rewrite Hn.
    + exists (file_NewMetrics reg). split; [|done]. rewrite !elem_of_app; left; left.
    + exists (syslog_NewMetrics reg). split; [|done].
      rewrite !elem_of_app; right; left; left.
    + exists (gcplog_NewMetrics reg). split; [|done].
      rewrite !elem_of_app; right; right; left.
Qed.

Lemma backend_call_only e kg :
  backend_call e = Some kg ->
  metrics_call e = None /\ creates_position_store e = false.
Proof. by destruct e. Qed.

Lemma needs_registry_group cfgs (m : gmap string (list Config)) kind :
  (forall kind,
     m !! kind =
     if decide (group kind cfgs = []) then None else Some (group kind cfgs)) ->
  needs_registry kind m = true <-> group kind cfgs <> [].
Proof.
  intros Hm. unfold needs_registry. rewrite lookup_total_alt, Hm.
  destruct (decide (group kind cfgs = [])) as [->|Hne]; simpl.
  - split; [discriminate | done].
  - split; [done|]. intros _. destruct (group kind cfgs); [done|].
    simpl. by apply Nat.ltb_lt; lia.
Qed.

Lemma known_or_unknown (cfgs : list Config) :
  Forall (fun cfg => is_Some (first_match cfg)) cfgs \/
  exists cfg, cfg ∈ cfgs /\ first_match cfg = None.
Proof.
  induction cfgs as [|c rest [IH|(cfg & Hin & Hcfg)]].
  - by left.
  - destruct (first_match c) as [k|] eqn:Hc.
    + left. constructor; [by rewrite Hc | done].
    + right. exists c. split; [left | done].
  - right. exists cfg. split; [by right | done].
Qed.

Section groups.
Variables (range : RangeOrder) (E : Env).
Variables (app : Shutdownable) (reg : Registerer) (logger : Logger).
Variables (positionsConfig : positions.Config) (client : EntryHandler).
Variables (scrapeConfigs : list Config) (targetConfig : file.Config).
Hypothesis range_ok : range_valid range.

Let outcome :=
  construct range E app reg logger positionsConfig client
    scrapeConfigs targetConfig.

(** Whatever the run, a backend constructor is only ever called with the
    whole, non-empty group of its kind. *)
Lemma backend_groups e kind g :
  e ∈ outcome.2 -> backend_call e = Some (kind, g) ->
  g = group kind scrapeConfigs /\ g <> [].
Proof.
  intros Hin He. subst outcome.
  destruct (file.Stdin targetConfig) eqn:Hstdin.
  { rewrite path_stdin in Hin by done. simpl in Hin.
    rewrite !elem_of_cons, elem_of_nil in Hin.
    by destruct Hin as [->|[->|[]]]. }
  destruct (env_positions E positionsConfig) as [err|p] eqn:Hpos.
  { rewrite (path_positions_error _ _ _ _ _ _ _ _ _ err) in Hin by done.
    apply list_elem_of_singleton in Hin. by subst e. }
  destruct (known_or_unknown scrapeConfigs) as [Hknown|Hun].
  - destruct (path_built range E app reg logger positionsConfig client
                scrapeConfigs targetConfig p Hstdin Hpos Hknown)
      as (m & out & evs & Hm & Hev & Htr & _).
    rewrite Htr in Hin. apply elem_of_cons in Hin as [->|Hin]; [done|].
    apply elem_of_app in Hin as [Hin|Hin].
    { apply provision_events_inert in Hin as [Hb _]. congruence. }
    rewrite Forall_forall in Hev. destruct (Hev e Hin) as ([k' g'] & Hkg & He').
    rewrite He in He'. injection He' as <- <-.
    apply (range_lookup range m kind g range_ok) in Hkg.
    rewrite Hm in Hkg. by destruct (decide _); simplify_eq.
  - rewrite (path_unknown _ _ _ _ _ _ _ _ _ p) in Hin by done.
    apply list_elem_of_singleton in Hin. by subst e.
Qed.
End groups.

(** * The claims *)

Lemma group_split kind (l1 l2 l3 : list Config) a b :
  first_match a = Some kind -> first_match b = Some kind ->
  group kind (l1 ++ a :: l2 ++ b :: l3) =
  group kind l1 ++ a :: group kind l2 ++ b :: group kind l3.
Proof.
  intros Ha Hb. unfold group.
  rewrite filter_app, filter_cons_True by done.
  by rewrite filter_app, filter_cons_True by done.
Qed.





(** C9.  Outside the single-stream mode, a group keeps the configs in the
    order of the input: whenever [a] comes before [b] in the list and both
    are classified to the same kind, [a] comes before [b] in every group of
    that kind that a backend constructor receives, and in the group the
    classification loop leaves in its map. *)
Theorem group_order_preserved
    (range : RangeOrder) (E : Env) (app : Shutdownable) (reg : Registerer)
    (logger : Logger) (positionsConfig : positions.Config)
    (client : EntryHandler) (scrapeConfigs : list Config)
    (targetConfig : file.Config)
    (kind : string) (a b : Config) (l1 l2 l3 : list Config) :
  range_valid range ->
  file.Stdin targetConfig = false ->
  scrapeConfigs = l1 ++ a :: l2 ++ b :: l3 ->
  switch_case a = Some kind ->
  switch_case b = Some kind ->
  (forall e g,
     e ∈ (construct range E app reg logger positionsConfig client
            scrapeConfigs targetConfig).2 ->
     backend_call e = Some (kind, g) ->
     exists g1 g2 g3, g = g1 ++ a :: g2 ++ b :: g3) /\
  (forall m tr tr',
     classify_loop scrapeConfigs ∅ tr = (inr m, tr') ->
     exists g1 g2 g3, m !! kind = Some (g1 ++ a :: g2 ++ b :: g3)).
Proof.
  intros Hrange _ Hsplit Ha Hb. rewrite switch_case_first_match in Ha, Hb.
  pose proof (group_split kind l1 l2 l3 a b Ha Hb) as Hgroup.
  rewrite <- Hsplit in Hgroup. split.
  - intros e g Hin He.
    destruct (backend_groups range E app reg logger positionsConfig client
                scrapeConfigs targetConfig Hrange e kind g Hin He) as [-> _].
    rewrite Hgroup. by eexists _, _, _.
  - intros m tr tr' Hrun.
    destruct (known_or_unknown scrapeConfigs) as [Hknown|Hun].
    + destruct (classify_loop_known scrapeConfigs ∅ tr Hknown) as (m' & Hrun' & Hm').
      rewrite Hrun' in Hrun. injection Hrun as <- _.
      rewrite Hm', Hgroup, lookup_total_empty.
      destruct (decide _) as [Hnil|_].
      * by destruct (group kind l1).
      * by eexists _, _, _.
    + rewrite (classify_loop_unknown _ _ _ Hun) in Hrun. discriminate.
Qed.

Lemma group_order_preserved_witness :
  exists g1 g2 g3,
    [cfg_file; cfg_file2] = g1 ++ cfg_file :: g2 ++ cfg_file2 :: g3.
Proof.
  refine (proj1 (group_order_preserved range_listing env_ok
            "app" "reg" "log" "pc" "client"
            [cfg_file; cfg_gcplog; cfg_file2; cfg_journal] no_stdin
            FileScrapeConfigs cfg_file cfg_file2 [] [cfg_gcplog] [cfg_journal]
            _ _ _ _ _)
            (file_NewFileTargetManager (Some {| file.reg := "reg" |}) "log"
               pos0 "client" [cfg_file; cfg_file2] no_stdin)
            [cfg_file; cfg_file2] _ _).
  - intros A m. reflexivity.
  - reflexivity.
  - reflexivity.
  - reflexivity.
  - reflexivity.
  - vm_compute. do 4 right. left.
  - reflexivity.
Defined.

(** C3.  With the stdin flag set and the single-stream constructor
    succeeding, the manager holds that one backend and no position store,
    whatever the scrape configs are; the only calls made are the log line
    and the single-stream constructor. *)
Theorem stdin_short_circuit
    (range : RangeOrder) (E : Env) (app : Shutdownable) (reg : Registerer)
    (logger : Logger) (positionsConfig : positions.Config)
    (client : EntryHandler) (scrapeConfigs : list Config)
    (targetConfig : file.Config) (stdin : targetManager) :
  file.Stdin targetConfig = true ->
  env_stdin E scrapeConfigs = inr stdin ->
  construct range E app reg logger positionsConfig client
    scrapeConfigs targetConfig =
  ((Some {| targetManagers := [stdin]; positions := None |}, None),
   [Log_Debug logger "configured to read from stdin";
    stdin_NewStdinTargetManager reg logger app client scrapeConfigs]).
Proof.
  intros Hstdin Hok. rewrite path_stdin by done. by rewrite Hok.
Qed.

Lemma stdin_short_circuit_witness :
  construct range_listing env_ok "app" "reg" "log" "pc" "client"
    [cfg_file; cfg_unknown] with_stdin =
  ((Some {| targetManagers := [backend "stdin" true []]; positions := None |},
    None),
   [Log_Debug "log" "configured to read from stdin";
    stdin_NewStdinTargetManager "reg" "log" "app" "client"
      [cfg_file; cfg_unknown]]).
Proof.
  apply (stdin_short_circuit range_listing env_ok "app" "reg" "log" "pc"
           "client" [cfg_file; cfg_unknown] with_stdin (backend "stdin" true [])).
  - reflexivity.
  - reflexivity.
Defined.

(** C8, as the code has it.  Outside the single-stream mode the position
    store is opened first: [positions.New] is the first call of every run;
    when it fails its error is returned and nothing else is called; when it
    succeeds and the list holds an unrecognized config, construction fails
    with the "unknown scrape config" error, the position store having been
    created and no other call made. *)
Theorem positions_before_classification
    (range : RangeOrder) (E : Env) (app : Shutdownable) (reg : Registerer)
    (logger : Logger) (positionsConfig : positions.Config)
    (client : EntryHandler) (scrapeConfigs : list Config)
    (targetConfig : file.Config) :
  file.Stdin targetConfig = false ->
  let outcome := construct range E app reg logger positionsConfig client
                   scrapeConfigs targetConfig in
  (exists rest, outcome.2 = positions_New logger positionsConfig :: rest) /\
  (forall err,
     env_positions E positionsConfig = inl err ->
     outcome = ((None, Some err), [positions_New logger positionsConfig])) /\
  (forall p,
     env_positions E positionsConfig = inr p ->
     (exists cfg, cfg ∈ scrapeConfigs /\ first_match cfg = None) ->
     outcome = ((None, Some (New "unknown scrape config")),
                [positions_New logger positionsConfig])).
Proof.
  intros Hstdin outcome. subst outcome. split; [|split].
  - destruct (env_positions E positionsConfig) as [err|p] eqn:Hpos.
    { rewrite (path_positions_error _ _ _ _ _ _ _ _ _ err) by done. by eexists. }
    destruct (known_or_unknown scrapeConfigs) as [Hknown|Hun].
    + destruct (path_built range E app reg logger positionsConfig client
                  scrapeConfigs targetConfig p Hstdin Hpos Hknown)
        as (m & out & evs & _ & _ & -> & _).
      by eexists.
    + rewrite (path_unknown _ _ _ _ _ _ _ _ _ p) by done. by eexists.
  - intros err Hpos. by apply path_positions_error.
  - intros p Hpos Hun. by apply (path_unknown _ _ _ _ _ _ _ _ _ p).
Qed.

Lemma positions_before_classification_witness :
  construct range_listing env_ok "app" "reg" "log" "pc" "client"
    [cfg_file; cfg_unknown] no_stdin =
  ((None, Some (New "unknown scrape config")), [positions_New "log" "pc"]).
Proof.
  refine (proj2 (proj2 (positions_before_classification range_listing env_ok
            "app" "reg" "log" "pc" "client" [cfg_file; cfg_unknown] no_stdin _))
            pos0 _ _).
  - reflexivity.
  - reflexivity.
  - exists cfg_unknown. split; [right; left | reflexivity].
Defined.

(** C8 as it is written fails: with an unrecognized config in the list the
    position store has already been created when construction fails. *)
Lemma position_store_created_before_classification_error :
  ~ classify_first_sentence [cfg_file; cfg_unknown]
      (construct range_listing env_ok "app" "reg" "log" "pc" "client"
         [cfg_file; cfg_unknown] no_stdin).1
      (construct range_listing env_ok "app" "reg" "log" "pc" "client"
         [cfg_file; cfg_unknown] no_stdin).2.
Proof.
  intros H. destruct H as [_ Hnone].
  - exists cfg_unknown. split; [right; left | reflexivity].
  - specialize (Hnone (positions_New "log" "pc")).
    assert (Hin : positions_New "log" "pc" ∈
              (construct range_listing env_ok "app" "reg" "log" "pc" "client"
                 [cfg_file; cfg_unknown] no_stdin).2).
    { vm_compute. left. }
    specialize (Hnone Hin). discriminate Hnone.
Qed.

(** C7, as the code has it.  Outside the single-stream mode: in every run a
    registry is created only for a kind among File, Syslog and Gcplog whose
    group is not empty; and in the runs in which the position store opens
    and every config is recognized, a registry is created for a kind if and
    only if its group is not empty and it is one of File, Syslog, Gcplog. *)
Theorem registry_when_provisioned
    (range : RangeOrder) (E : Env) (app : Shutdownable) (reg : Registerer)
    (logger : Logger) (positionsConfig : positions.Config)
    (client : EntryHandler) (scrapeConfigs : list Config)
    (targetConfig : file.Config) :
  file.Stdin targetConfig = false ->
  let tr := (construct range E app reg logger positionsConfig client
               scrapeConfigs targetConfig).2 in
  (forall kind,
     registry_created kind tr ->
     group kind scrapeConfigs <> [] /\ kind ∈ kinds_with_registry) /\
  (forall p,
     env_positions E positionsConfig = inr p ->
     Forall (fun cfg => is_Some (switch_case cfg)) scrapeConfigs ->
     registry_sentence scrapeConfigs tr).
Proof.
  intros Hstdin tr.
  assert (Hquiet : forall kind e0,
            registry_created kind [e0] -> metrics_call e0 = None -> False).
  { intros kind e0 (e & Hin & He) H0.
    apply list_elem_of_singleton in Hin. subst e. congruence. }
  assert (Hbuilt : forall p,
            env_positions E positionsConfig = inr p ->
            Forall (fun cfg => is_Some (first_match cfg)) scrapeConfigs ->
            registry_sentence scrapeConfigs tr).
  { intros p Hpos Hknown. subst tr.
    destruct (path_built range E app reg logger positionsConfig client
                scrapeConfigs targetConfig p Hstdin Hpos Hknown)
      as (m & out & evs & Hm & Hev & -> & _).
    intros kind.
    rewrite <- (needs_registry_group scrapeConfigs m kind Hm).
    rewrite (and_comm (needs_registry kind m = true)).
    rewrite <- (provision_events_registry reg m kind). split.
    - intros (e & Hin & He). exists e. split; [|done].
      apply elem_of_cons in Hin as [->|Hin]; [done|].
      apply elem_of_app in Hin as [Hin|Hin]; [done|].
      rewrite Forall_forall in Hev. destruct (Hev e Hin) as (kg & _ & Hcall).
      apply backend_call_only in Hcall as [Hno _]. congruence.
    - intros (e & Hin & He). exists e. split; [|done].
      right. apply elem_of_app. by left. }
  split.
  - intros kind Hreg.
    destruct (env_positions E positionsConfig) as [err|p] eqn:Hpos.
    { subst tr. rewrite (path_positions_error _ _ _ _ _ _ _ _ _ err) in Hreg by done.
      by destruct (Hquiet _ _ Hreg). }
    destruct (known_or_unknown scrapeConfigs) as [Hknown|Hun].
    + by apply (Hbuilt p eq_refl Hknown).
    + subst tr. rewrite (path_unknown _ _ _ _ _ _ _ _ _ p) in Hreg by done.
      by destruct (Hquiet _ _ Hreg).
  - intros p Hpos Hknown. apply (Hbuilt p Hpos).
    eapply Forall_impl; [exact Hknown|]. intros cfg Hcfg.
    by rewrite <- switch_case_first_match.
Qed.

Lemma registry_when_provisioned_witness :
  registry_sentence [cfg_file; cfg_journal; cfg_push]
    (construct range_listing env_ok "app" "reg" "log" "pc" "client"
       [cfg_file; cfg_journal; cfg_push] no_stdin).2.
Proof.
  refine (proj2 (registry_when_provisioned range_listing env_ok
            "app" "reg" "log" "pc" "client"
            [cfg_file; cfg_journal; cfg_push] no_stdin _) pos0 _ _).
  - reflexivity.
  - reflexivity.
  - repeat constructor; by eexists.
Defined.

(** C7 as it is written fails: the list below has a non-empty File group,
    yet construction stops at the unrecognized config and creates no
    registry. *)
Lemma no_registry_when_classification_fails :
  ~ registry_sentence [cfg_file; cfg_unknown]
      (construct range_listing env_ok "app" "reg" "log" "pc" "client"
         [cfg_file; cfg_unknown] no_stdin).2.
Proof.
  intros H. destruct (H FileScrapeConfigs) as [_ Hreg].
  destruct Hreg as (e & Hin & He).
  - split; [discriminate | left].
  - vm_compute in Hin. apply list_elem_of_singleton in Hin.
    subst e. discriminate He.
Qed.

(** C4 fails on the code for the Gcplog kind.  With one pub/sub config whose
    constructor fails, the error returned is wrapped with the message of
    the syslog kind: "failed to make syslog target manager". *)
Theorem gcplog_failure_named_syslog :
  construct range_listing env_gcplog_fails "app" "reg" "log" "pc" "client"
    [cfg_gcplog] no_stdin =
  ((None,
    Some (Wrap (New "no credentials") "failed to make syslog target manager")),
   [positions_New "log" "pc"; gcplog_NewMetrics "reg";
    gcplog_NewGcplogTargetManager (Some {| gcplog.reg := "reg" |}) "log"
      "client" [cfg_gcplog]]) /\
  Error (Wrap (New "no credentials") "failed to make syslog target manager") =
  "failed to make syslog target manager: no credentials".
Proof. split; vm_compute; reflexivity. Qed.

(** For every environment: a failing pub/sub constructor is reported under
    the syslog message, whatever else the run did before. *)
Lemma gcplog_error_wrapped_as_syslog
    (E : Env) (reg : Registerer) (logger : Logger) (client : EntryHandler)
    (targetConfig : file.Config) fm sm gm p g tms tr err :
  env_gcplog E gm g = inl err ->
  build_one E reg logger client targetConfig fm sm gm p
    GcplogScrapeConfigs g tms tr =
  (inl (None, Some (Wrap err "failed to make syslog target manager")),
   tr ++ [gcplog_NewGcplogTargetManager gm logger client g]).
Proof.
  intros Herr. unfold build_one. repeat (case_decide; [discriminate|]).
  rewrite decide_True by done. by rewrite bind_call, Herr.
Qed.

(** C2.  [Stop] calls [Stop] on every backend of the manager, once each and
    in the order of the manager's list, and only then closes the position
    store; with no position store nothing is closed.  A manager built in
    the single-stream mode has no position store. *)
Theorem stop_backends_then_position_store (tm : TargetManagers) (tr0 : Trace) :
  exists evs,
    run (Stop tm) tr0 = (tt, tr0 ++ evs) /\
    omap stopped_backend evs = targetManagers tm /\
    (forall i j t p,
       evs !! i = Some (targetManager_Stop t) ->
       evs !! j = Some (positions_Stop p) -> i < j) /\
    (forall p, positions tm = Some p -> last evs = Some (positions_Stop p)) /\
    (positions tm = None ->
     forall e, e ∈ evs -> closes_position_store e = false) /\
    (forall range E app reg logger positionsConfig client scrapeConfigs
            targetConfig,
       file.Stdin targetConfig = true ->
       (construct range E app reg logger positionsConfig client
          scrapeConfigs targetConfig).1 = (Some tm, None) ->
       positions tm = None).
Proof.
  rewrite Stop_trace. eexists. split; [reflexivity|].
  set (stops := map targetManager_Stop (targetManagers tm)).
  assert (Hstops : forall i e, stops !! i = Some e ->
                     exists t, e = targetManager_Stop t).
  { intros i e Hi. apply list_lookup_fmap_Some in Hi as (t & -> & _).
    by exists t. }
  repeat split.
  - rewrite omap_app. subst stops. rewrite omap_stopped_backend.
    destruct (positions tm); simpl; by rewrite app_nil_r.
  - intros i j t p Hi Hj.
    destruct (decide (j < length stops)) as [Hlt|Hge].
    + rewrite lookup_app_l in Hj by done.
      by destruct (Hstops _ _ Hj) as [t' ?].
    + apply lookup_lt_Some in Hi as Hlen. rewrite length_app in Hlen.
      destruct (decide (i < length stops)) as [?|Hige]; [lia|].
      rewrite lookup_app_r in Hi by lia.
      destruct (positions tm); simpl in Hi, Hlen.
      * destruct (i - length stops) eqn:Hd; simpl in Hi; [discriminate|].
        by destruct n.
      * by destruct (i - length stops).
  - intros p ->. by rewrite last_app.
  - intros -> e Hin. rewrite app_nil_r in Hin.
    apply list_elem_of_lookup in Hin as [i Hi].
    by destruct (Hstops _ _ Hi) as [t ->].
  - intros range E app reg logger positionsConfig client scrapeConfigs
      targetConfig Hstdin Hres.
    rewrite path_stdin in Hres by done. simpl in Hres.
    destruct (env_stdin E scrapeConfigs); [discriminate|].
    by injection Hres as <-.
Qed.

Lemma stop_backends_then_position_store_witness :
  exists evs,
    run (Stop manager_AB) [] = (tt, [] ++ evs) /\
    omap stopped_backend evs = [backend_A; backend_B] /\
    (forall i j t p,
       evs !! i = Some (targetManager_Stop t) ->
       evs !! j = Some (positions_Stop p) -> i < j) /\
    last evs = Some (positions_Stop pos0).
Proof.
  destruct (stop_backends_then_position_store manager_AB [])
    as (evs & Hrun & Hall & Hord & Hlast & _).
  exists evs. repeat split; [exact Hrun | exact Hall | exact Hord |].
  apply Hlast. reflexivity.
Defined.

(** C5.  [Ready] is true exactly when some backend of the manager is
    ready; it is false for a manager without backends and when every
    backend reports not ready. *)
Theorem ready_iff_some_backend_ready (tm : TargetManagers) :
  (Ready tm = true <-> exists t, t ∈ targetManagers tm /\ t_Ready t = true) /\
  (targetManagers tm = [] -> Ready tm = false) /\
  ((forall t, t ∈ targetManagers tm -> t_Ready t = false) -> Ready tm = false).
Proof.
  unfold Ready. split; [apply Ready_loop_true|]. split.
  - by intros ->.
  - intros Hnone. apply not_true_is_false. rewrite Ready_loop_true.
    intros (t & Hin & Ht). rewrite (Hnone t Hin) in Ht. discriminate.
Qed.

Lemma ready_iff_some_backend_ready_witness :
  Ready manager_AB = true /\
  Ready {| targetManagers := []; positions := None |} = false /\
  Ready {| targetManagers := [backend_A]; positions := None |} = false.
Proof.
  split; [|split].
  - apply (proj1 (ready_iff_some_backend_ready manager_AB)).
    exists backend_B. split; [right; left | reflexivity].
  - apply (proj1 (proj2 (ready_iff_some_backend_ready
                           {| targetManagers := []; positions := None |}))).
    reflexivity.
  - apply (proj2 (proj2 (ready_iff_some_backend_ready
                           {| targetManagers := [backend_A]; positions := None |}))).
    intros t Hin. apply list_elem_of_singleton in Hin. by subst t.
Defined.

(** C6.  For every job name, [ActiveTargets] (and [AllTargets]) gives the
    concatenation, in the order of the manager's backend list, of the lists
    the backends report for that job: nothing is dropped and nothing is
    merged.  The job is a key of the result exactly when it is a key of
    some backend's answer. *)
Theorem targets_concatenated (range : RangeOrder) (tm : TargetManagers)
    (job : string) :
  range_valid range ->
  (ActiveTargets range tm !!! job =
     concat (map (fun t => t_ActiveTargets t !!! job) (targetManagers tm)) /\
   (is_Some (ActiveTargets range tm !! job) <->
    exists t, t ∈ targetManagers tm /\ is_Some (t_ActiveTargets t !! job))) /\
  (AllTargets range tm !!! job =
     concat (map (fun t => t_AllTargets t !!! job) (targetManagers tm)) /\
   (is_Some (AllTargets range tm !! job) <->
    exists t, t ∈ targetManagers tm /\ is_Some (t_AllTargets t !! job))).
Proof.
  intros Hrange. unfold ActiveTargets, AllTargets. repeat split.
  - by apply merge_targets_total.
  - by apply merge_targets_is_Some.
  - by apply merge_targets_is_Some.
  - by apply merge_targets_total.
  - by apply merge_targets_is_Some.
  - by apply merge_targets_is_Some.
Qed.

Lemma targets_concatenated_witness :
  ActiveTargets range_listing manager_AB !!! "x" = ["t1"; "t2"].
Proof.
  refine (eq_trans (proj1 (proj1 (targets_concatenated range_listing manager_AB
                                    "x" _))) _).
  - intros A m. reflexivity.
  - vm_compute. reflexivity.
Defined.

(** * Further properties of the code *)

(** ** The backend loop, case by case *)

Lemma omap_cons_Some {A B} (f : A -> option B) x y l :
  f x = Some y -> omap f (x :: l) = y :: omap f l.
Proof. intros H. simpl. by rewrite H. Qed.

Lemma omap_cons_None {A B} (f : A -> option B) x l :
  f x = None -> omap f (x :: l) = omap f l.
Proof. intros H. simpl. by rewrite H. Qed.

Section loop_cases.
Variable E : Env.
Variables (reg : Registerer) (logger : Logger) (client : EntryHandler).
Variable targetConfig : file.Config.
Variable fileMetrics : option file.Metrics.
Variable syslogMetrics : option syslog.Metrics.
Variable gcplogMetrics : option gcplog.Metrics.
Variable p : positions.Positions.

Let one := build_one E reg logger client targetConfig
             fileMetrics syslogMetrics gcplogMetrics p.
Let loop := build_loop E reg logger client targetConfig
              fileMetrics syslogMetrics gcplogMetrics p.
Let the_call := constructor_call E reg logger client targetConfig
                  fileMetrics syslogMetrics gcplogMetrics p.

Lemma build_one_eq target g tms tr :
  one target g tms tr =
  match the_call target g with
  | Some (e, inl err) =>
      (inl (None, Some (Wrap err (wrap_message target))), tr ++ [e])
  | Some (e, inr t) => (inr (tms ++ [t]), tr ++ [e])
  | None => (inl (None, Some (New "unknown scrape config")), tr)
  end.
Proof.
  unfold one, build_one, the_call, constructor_call, wrap_message.
  repeat case_decide; subst; try discriminate; try reflexivity;
    rewrite bind_call;
    match goal with
    | |- context [match ?r with inl _ => _ | inr _ => _ end] => by destruct r
    end.
Qed.

Lemma constructor_call_kind target g e a :
  the_call target g = Some (e, a) ->
  backend_call e = Some (target, g) /\ target ∈ kinds.
Proof.
  unfold the_call, constructor_call, kinds. rewrite !elem_of_cons.
  repeat case_decide; intros ?; simplify_eq; split; auto 10.
Qed.

Lemma build_loop_cons k g rest tms tr :
  loop ((k, g) :: rest) tms tr =
  match one k g tms tr with
  | (inl r, tr') => (inl r, tr')
  | (inr tms', tr') => loop rest tms' tr'
  end.
Proof. reflexivity. Qed.

(** The loop either runs every entry's constructor with success, or stops
    at the first entry whose constructor fails (or whose key has no case). *)
Lemma build_loop_cases c l tms tr :
  (forall k g, (k, g) ∈ l -> the_call k g = c k g) ->
  (Forall (fun kg => is_Some (call_backend c kg)) l /\
   loop l tms tr = (inr (tms ++ omap (call_backend c) l),
                    tr ++ omap (call_event c) l)) \/
  (exists l1 k g l2,
     l = l1 ++ (k, g) :: l2 /\
     Forall (fun kg => is_Some (call_backend c kg)) l1 /\
     ((exists e err,
         c k g = Some (e, inl err) /\
         loop l tms tr =
         (inl (None, Some (Wrap err (wrap_message k))),
          tr ++ omap (call_event c) l1 ++ [e])) \/
      (c k g = None /\
       loop l tms tr =
       (inl (None, Some (New "unknown scrape config")),
        tr ++ omap (call_event c) l1)))).
Proof.
  revert tms tr. induction l as [|[k g] rest IH]; intros tms tr Hc.
  - left. split; [constructor|]. simpl. by rewrite !app_nil_r.
  - assert (Hrest : forall k' g', (k', g') ∈ rest -> the_call k' g' = c k' g').
    { intros k' g' Hin. apply Hc. by right. }
    assert (Hhead : the_call k g = c k g) by (apply Hc; left).
    rewrite !build_loop_cons, build_one_eq, Hhead.
    destruct (c k g) as [[e [err|t]]|] eqn:Hkg.
    + right. exists [], k, g, rest. split; [done|]. split; [constructor|].
      left. by exists e, err.
    + assert (Hb : call_backend c (k, g) = Some t).
      { unfold call_backend. simpl. by rewrite Hkg. }
      assert (He : call_event c (k, g) = Some e).
      { unfold call_event. simpl. by rewrite Hkg. }
      destruct (IH (tms ++ [t]) (tr ++ [e]) Hrest)
        as [[Hall Hrun]|(l1 & k' & g' & l2 & -> & Hall & Hstop)].
      * left. split; [constructor; [by rewrite Hb | done]|].
        rewrite Hrun, (omap_cons_Some _ _ _ _ Hb), (omap_cons_Some _ _ _ _ He).
        by rewrite <- !app_assoc.
      * right. exists ((k, g) :: l1), k', g', l2. split; [done|].
        split; [constructor; [by rewrite Hb | done]|].
        rewrite (omap_cons_Some _ _ _ _ He).
        destruct Hstop as [(e' & err & Hc' & Hrun)|[Hc' Hrun]].
        -- left. exists e', err. split; [done|]. rewrite Hrun.
           by rewrite <- !app_assoc.
        -- right. split; [done|]. rewrite Hrun. by rewrite <- !app_assoc.
    + right. exists [], k, g, rest. split; [done|]. split; [constructor|].
      right. split; [done|]. simpl. by rewrite app_nil_r.
Qed.
End loop_cases.

(** ** Kinds and groups *)

Lemma first_match_kind cfg kind : first_match cfg = Some kind -> kind ∈ kinds.
Proof.
  unfold first_match, priority, kinds. simpl.
  repeat (match goal with
          | |- context [if ?b then _ else _] => destruct b
          end; simpl; [intros [= <-]; rewrite !elem_of_cons; auto 10|]).
  discriminate.
Qed.

Lemma first_match_None cfg : first_match cfg = None <-> nothing_populated cfg.
Proof.
  unfold first_match, priority, nothing_populated. simpl.
  destruct (HasServiceDiscoveryConfig cfg), (JournalConfig cfg),
    (SyslogConfig cfg), (GcplogConfig cfg), (PushConfig cfg); simpl;
    split; try discriminate; try done; intros (?&?&?&?&?); discriminate.
Qed.

Lemma NoDup_kinds : NoDup kinds.
Proof.
  unfold kinds. repeat (apply NoDup_cons; split;
    [rewrite ?elem_of_cons, elem_of_nil; intros H;
     repeat (destruct H as [H|H]; [discriminate|]); done|]).
  apply NoDup_nil_2.
Qed.

Lemma elem_of_group_entries cfgs k g :
  (k, g) ∈ group_entries cfgs <-> k ∈ kinds /\ g = group k cfgs /\ g <> [].
Proof.
  unfold group_entries. rewrite list_elem_of_filter, list_elem_of_fmap. simpl.
  split.
  - intros [Hne (k' & [= -> ->] & Hk)]. done.
  - intros (Hk & -> & Hne). split; [done|]. by exists k.
Qed.

Lemma NoDup_fst_group_entries cfgs : NoDup (group_entries cfgs).*1.
Proof.
  unfold group_entries.
  assert (Hsub : forall (l : list string),
            NoDup l ->
            NoDup (filter (fun kg : string * list Config => kg.2 <> [])
                     (map (fun kind => (kind, group kind cfgs)) l)).*1).
  { induction l as [|k l IH]; intros Hnd; [constructor|].
    apply NoDup_cons in Hnd as [Hk Hnd]. simpl. rewrite filter_cons. simpl.
    destruct (decide (group k cfgs <> [])); [|by apply IH].
    simpl. apply NoDup_cons. split; [|by apply IH].
    rewrite list_elem_of_fmap. intros ([k' g'] & -> & Hin).
    apply list_elem_of_filter in Hin as [_ Hin].
    apply list_elem_of_fmap in Hin as (k'' & [= -> ->] & Hin). done. }
  apply Hsub, NoDup_kinds.
Qed.

Lemma length_group_entries cfgs : length (group_entries cfgs) <= 5.
Proof. unfold group_entries. etrans; [apply length_filter|]. done. Qed.

Lemma range_group_entries (range : RangeOrder) cfgs (m : gmap string (list Config)) :
  range_valid range ->
  (forall kind,
     m !! kind =
     if decide (group kind cfgs = []) then None else Some (group kind cfgs)) ->
  range _ m ≡ₚ group_entries cfgs.
Proof.
  intros Hr Hm. rewrite (Hr _ m). apply NoDup_Permutation.
  - apply NoDup_map_to_list.
  - eapply NoDup_fmap_1, NoDup_fst_group_entries.
  - intros [k g]. rewrite elem_of_map_to_list, elem_of_group_entries, Hm.
    destruct (decide (group k cfgs = [])) as [Hnil|Hne].
    + split; [discriminate|]. intros (_ & -> & ?). done.
    + split.
      * intros [= <-]. split; [|done].
        destruct (group k cfgs) as [|cfg rest] eqn:Hg; [done|].
        assert (Hin : cfg ∈ group k cfgs) by (rewrite Hg; left).
        apply list_elem_of_filter in Hin as [Hk _].
        by apply first_match_kind in Hk.
      * by intros (_ & -> & _).
Qed.

Lemma provisioned_call_agrees E reg logger client targetConfig p cfgs m k g :
  (forall kind,
     m !! kind =
     if decide (group kind cfgs = []) then None else Some (group kind cfgs)) ->
  (k, g) ∈ group_entries cfgs ->
  constructor_call E reg logger client targetConfig
    (if needs_registry FileScrapeConfigs m
     then Some {| file.reg := reg |} else None)
    (if needs_registry SyslogScrapeConfigs m
     then Some {| syslog.reg := reg |} else None)
    (if needs_registry GcplogScrapeConfigs m
     then Some {| gcplog.reg := reg |} else None) p k g =
  provisioned_call E reg logger client targetConfig p k g.
Proof.
  intros Hm Hin. apply elem_of_group_entries in Hin as (_ & -> & Hne).
  apply (needs_registry_group cfgs m k Hm) in Hne.
  unfold provisioned_call, constructor_call.
  repeat case_decide; subst; try reflexivity; by rewrite Hne.
Qed.

(** ** Runs that reach the backend loop *)

Section provisioned.
Variables (E : Env) (reg : Registerer) (logger : Logger).
Variables (client : EntryHandler) (targetConfig : file.Config).
Variable p : positions.Positions.

Let c := provisioned_call E reg logger client targetConfig p.

Lemma provisioned_call_event k g e a :
  c k g = Some (e, a) ->
  backend_call e = Some (k, g) /\ k ∈ kinds /\ well_provisioned reg p e.
Proof.
  intros Hc. split; [|split].
  - by apply (constructor_call_kind _ _ _ _ _ _ _ _ _ _ _ _ _ Hc).
  - by apply (constructor_call_kind _ _ _ _ _ _ _ _ _ _ _ _ _ Hc).
  - revert Hc. unfold c, provisioned_call, constructor_call.
    repeat case_decide; intros ?; simplify_eq; done.
Qed.

Lemma call_event_spec (l : list (string * list Config)) e :
  e ∈ omap (call_event c) l ->
  exists k g a, (k, g) ∈ l /\ c k g = Some (e, a).
Proof.
  rewrite list_elem_of_omap. intros ([k g] & Hin & He).
  unfold call_event in He. simpl in He.
  destruct (c k g) as [[e' a]|] eqn:Hc; [|discriminate].
  injection He as <-. by exists k, g, a.
Qed.

Lemma backend_calls_of_events (l : list (string * list Config)) :
  Forall (fun kg => is_Some (call_backend c kg)) l ->
  omap backend_call (omap (call_event c) l) = l.
Proof.
  induction 1 as [|[k g] l [t Ht] _ IH]; [done|].
  unfold call_backend in Ht. simpl in Ht.
  destruct (c k g) as [[e a]|] eqn:Hc; [|discriminate].
  assert (He : call_event c (k, g) = Some e).
  { unfold call_event. simpl. by rewrite Hc. }
  rewrite (omap_cons_Some _ _ _ _ He).
  apply provisioned_call_event in Hc as [Hb _].
  by rewrite (omap_cons_Some _ _ _ _ Hb), IH.
Qed.

Lemma built_backends (l : list (string * list Config)) :
  Forall (fun kg => is_Some (call_backend c kg)) l ->
  Forall2 (fun kg t => exists e, c kg.1 kg.2 = Some (e, inr t))
    l (omap (call_backend c) l).
Proof.
  induction 1 as [|[k g] l [t Ht] _ IH]; [constructor|].
  rewrite (omap_cons_Some _ _ _ _ Ht). constructor; [|done].
  unfold call_backend in Ht. simpl in *.
  destruct (c k g) as [[e [err|t']]|]; try discriminate.
  injection Ht as ->. by exists e.
Qed.
End provisioned.

Section reach_loop.
Variables (range : RangeOrder) (E : Env).
Variables (app : Shutdownable) (reg : Registerer) (logger : Logger).
Variables (positionsConfig : positions.Config) (client : EntryHandler).
Variables (scrapeConfigs : list Config) (targetConfig : file.Config).
Variable p : positions.Positions.
Hypothesis range_ok : range_valid range.
Hypothesis no_stdin : file.Stdin targetConfig = false.
Hypothesis store_open : env_positions E positionsConfig = inr p.
Hypothesis all_known :
  Forall (fun cfg => is_Some (first_match cfg)) scrapeConfigs.

Let outcome :=
  construct range E app reg logger positionsConfig client
    scrapeConfigs targetConfig.
Let c := provisioned_call E reg logger client targetConfig p.

(** The run opens the store, creates the registries, then calls the
    constructors of the non-empty groups in iteration order, either all of
    them with success or up to the first that fails. *)
Lemma path_run :
  exists (m : gmap string (list Config)) l,
    (forall kind,
       m !! kind =
       if decide (group kind scrapeConfigs = []) then None
       else Some (group kind scrapeConfigs)) /\
    l ≡ₚ group_entries scrapeConfigs /\
    ((Forall (fun kg => is_Some (call_backend c kg)) l /\
      outcome =
      ((Some {| targetManagers := omap (call_backend c) l;
                positions := Some p |}, None),
       positions_New logger positionsConfig ::
         provision_events reg m ++ omap (call_event c) l)) \/
     (exists l1 k g l2 e err,
        l = l1 ++ (k, g) :: l2 /\
        Forall (fun kg => is_Some (call_backend c kg)) l1 /\
        c k g = Some (e, inl err) /\
        outcome =
        ((None, Some (Wrap err (wrap_message k))),
         positions_New logger positionsConfig ::
           provision_events reg m ++ omap (call_event c) l1 ++ [e]))).
Proof.
  destruct (classify_loop_known scrapeConfigs ∅
              [positions_New logger positionsConfig] all_known)
    as (m & Hcl & Hm0).
  assert (Hm : forall kind,
             m !! kind =
             if decide (group kind scrapeConfigs = []) then None
             else Some (group kind scrapeConfigs)).
  { intros kind. rewrite Hm0, lookup_empty, lookup_total_empty.
    by destruct (decide _). }
  pose proof (range_group_entries range scrapeConfigs m range_ok Hm) as Hl.
  exists m, (range _ m). split; [done|]. split; [done|].
  unfold outcome. rewrite (path_classified _ _ _ _ _ _ _ _ _ p m no_stdin store_open Hcl).
  match goal with
  | |- context [build_loop ?a ?b ?d ?e ?f ?g ?h ?i ?j ?k ?l ?tr] =>
      destruct (build_loop_cases a b d e f g h i j c k l tr)
        as [[Hall Hrun]|(l1 & k' & g' & l2 & Hsplit & Hall & Hstop)]
  end.
  - intros k g Hin. apply (provisioned_call_agrees _ _ _ _ _ _ scrapeConfigs); [done|].
    by rewrite <- Hl.
  - left. split; [done|]. by rewrite Hrun.
  - right. destruct Hstop as [(e & err & Hc & Hrun)|[Hc Hrun]].
    + exists l1, k', g', l2, e, err. split; [done|]. split; [done|].
      split; [done|]. by rewrite Hrun.
    + exfalso.
      assert (Hin : (k', g') ∈ group_entries scrapeConfigs).
      { rewrite <- Hl, Hsplit. apply elem_of_app. right. left. }
      apply elem_of_group_entries in Hin as (Hk & _ & _).
      revert Hc. unfold c, provisioned_call, constructor_call.
      unfold kinds in Hk. rewrite !elem_of_cons, elem_of_nil in Hk.
      repeat case_decide; try discriminate. intros _.
      destruct Hk as [?|[?|[?|[?|[?|[]]]]]]; done.
Qed.
End reach_loop.

Lemma groups_partition (cfgs : list Config) :
  Forall (fun cfg => is_Some (first_match cfg)) cfgs ->
  cfgs ≡ₚ concat (map (fun kind => group kind cfgs) kinds).
Proof.
  induction 1 as [|cfg rest [kind Hk] _ IH]; [done|].
  pose proof (first_match_kind cfg kind Hk) as Hin.
  unfold kinds in *. cbn [map concat] in *. rewrite !group_cons, Hk.
  rewrite !elem_of_cons, elem_of_nil in Hin.
  destruct Hin as [->|[->|[->|[->|[->|[]]]]]];
    repeat (destruct (decide _) as [?|?]; [try discriminate|try done]);
    rewrite IH at 1; cbn [Datatypes.app]; by rewrite <- ?Permutation_middle.
Qed.

(** X1.  With the position store open, construction fails with the
    "unknown scrape config" error exactly when some config has none of the
    five discriminating fields populated.  A config with several of them
    populated is never rejected, and a failing backend constructor never
    produces this error. *)
Theorem unknown_error_iff_nothing_populated
    (range : RangeOrder) (E : Env) (app : Shutdownable) (reg : Registerer)
    (logger : Logger) (positionsConfig : positions.Config)
    (client : EntryHandler) (scrapeConfigs : list Config)
    (targetConfig : file.Config) (p : positions.Positions) :
  range_valid range ->
  file.Stdin targetConfig = false ->
  env_positions E positionsConfig = inr p ->
  (construct range E app reg logger positionsConfig client
     scrapeConfigs targetConfig).1 = (None, Some (New "unknown scrape config"))
  <-> exists cfg, cfg ∈ scrapeConfigs /\ nothing_populated cfg.
Proof.
  intros Hrange Hstdin Hpos. split.
  - intros Hres. destruct (known_or_unknown scrapeConfigs) as [Hknown|Hun].
    + destruct (path_run range E app reg logger positionsConfig client
                  scrapeConfigs targetConfig p Hrange Hstdin Hpos Hknown)
        as (m & l & _ & _ & [[_ Hrun]|(l1 & k & g & l2 & e & err & _ & _ & _ & Hrun)]);
        rewrite Hrun in Hres; discriminate.
    + destruct Hun as (cfg & Hin & Hnone). exists cfg.
      by rewrite <- first_match_None.
  - intros (cfg & Hin & Hnone). apply first_match_None in Hnone.
    rewrite (path_unknown _ _ _ _ _ _ _ _ _ p); [done..|]. by exists cfg.
Qed.

Lemma unknown_error_iff_nothing_populated_witness :
  (construct range_listing env_ok "app" "reg" "log" "pc" "client"
     [cfg_file; cfg_unknown] no_stdin).1 =
  (None, Some (New "unknown scrape config")).
Proof.
  apply (proj2 (unknown_error_iff_nothing_populated range_listing env_ok
                  "app" "reg" "log" "pc" "client" [cfg_file; cfg_unknown]
                  no_stdin pos0 (fun A m => reflexivity _) eq_refl eq_refl)).
  exists cfg_unknown. split; [right; left | by repeat split].
Defined.

(** X2.  When the classification loop finishes, it has made no call, each
    key of its map is one of the five kinds with a non-empty group, and the
    five groups together hold exactly the configs of the input, each once. *)
Theorem classification_partitions_input
    (scrapeConfigs : list Config) (m : gmap string (list Config))
    (tr tr' : Trace) :
  classify_loop scrapeConfigs ∅ tr = (inr m, tr') ->
  tr' = tr /\
  scrapeConfigs ≡ₚ concat (map (fun kind => m !!! kind) kinds) /\
  (forall kind g, m !! kind = Some g -> kind ∈ kinds /\ g <> []).
Proof.
  intros Hrun. destruct (known_or_unknown scrapeConfigs) as [Hknown|Hun].
  2: { rewrite (classify_loop_unknown _ _ _ Hun) in Hrun. discriminate. }
  destruct (classify_loop_known scrapeConfigs ∅ tr Hknown) as (m' & Hrun' & Hm).
  rewrite Hrun' in Hrun. injection Hrun as <- <-. split; [done|].
  assert (Hm' : forall kind,
             m' !! kind =
             if decide (group kind scrapeConfigs = []) then None
             else Some (group kind scrapeConfigs)).
  { intros kind. rewrite Hm, lookup_empty, lookup_total_empty.
    by destruct (decide _). }
  split.
  - rewrite (groups_partition scrapeConfigs Hknown) at 1.
    assert (Heq : forall kind, m' !!! kind = group kind scrapeConfigs).
    { intros kind. rewrite lookup_total_alt, Hm'.
      by destruct (decide _) as [->|]. }
    unfold kinds. cbn [map]. by rewrite !Heq.
  - intros kind g Hg. rewrite Hm' in Hg.
    destruct (decide _) as [|Hne]; [discriminate|]. injection Hg as <-.
    split; [|done].
    destruct (group kind scrapeConfigs) as [|cfg rest] eqn:Heq; [done|].
    assert (Hin : cfg ∈ group kind scrapeConfigs) by (rewrite Heq; left).
    apply list_elem_of_filter in Hin as [Hk _]. by apply first_match_kind in Hk.
Qed.

Lemma classification_partitions_input_witness :
  [cfg_file; cfg_gcplog; cfg_file2] ≡ₚ
  concat (map (fun kind =>
                 (list_to_map [(FileScrapeConfigs, [cfg_file; cfg_file2]);
                               (GcplogScrapeConfigs, [cfg_gcplog])]
                  : gmap string (list Config)) !!! kind) kinds).
Proof.
  refine (proj1 (proj2 (classification_partitions_input
            [cfg_file; cfg_gcplog; cfg_file2] _ [] [] _))).
  vm_compute. reflexivity.
Defined.

(** X3.  An empty list of configs is not an error: with the position store
    open, construction succeeds with a manager holding no backend and the
    store, after the single call that opens the store; that manager is
    never ready and reports no target. *)
Theorem empty_list_builds_empty_manager
    (range : RangeOrder) (E : Env) (app : Shutdownable) (reg : Registerer)
    (logger : Logger) (positionsConfig : positions.Config)
    (client : EntryHandler) (targetConfig : file.Config)
    (p : positions.Positions) :
  range_valid range ->
  file.Stdin targetConfig = false ->
  env_positions E positionsConfig = inr p ->
  construct range E app reg logger positionsConfig client [] targetConfig =
    ((Some {| targetManagers := []; positions := Some p |}, None),
     [positions_New logger positionsConfig]) /\
  Ready {| targetManagers := []; positions := Some p |} = false /\
  ActiveTargets range {| targetManagers := []; positions := Some p |} = ∅ /\
  AllTargets range {| targetManagers := []; positions := Some p |} = ∅.
Proof.
  intros Hrange Hstdin Hpos. split; [|done].
  destruct (path_run range E app reg logger positionsConfig client
              [] targetConfig p Hrange Hstdin Hpos (Forall_nil_2 _))
    as (m & l & Hm & Hl & Hcases).
  apply Permutation_nil_r in Hl. subst l.
  assert (Hprov : provision_events reg m = []).
  { unfold provision_events.
    assert (Hno : forall kind, needs_registry kind m = false).
    { intros kind. apply not_true_is_false.
      rewrite (needs_registry_group [] m kind Hm). intros H. by apply H. }
    by rewrite !Hno. }
  destruct Hcases as [[_ Hrun]|(l1 & k & g & l2 & e & err & Hsplit & _)].
  - by rewrite Hrun, Hprov.
  - by destruct l1.
Qed.

Lemma empty_list_builds_empty_manager_witness :
  construct range_listing env_ok "app" "reg" "log" "pc" "client" [] no_stdin =
  ((Some {| targetManagers := []; positions := Some pos0 |}, None),
   [positions_New "log" "pc"]).
Proof.
  exact (proj1 (empty_list_builds_empty_manager range_listing env_ok
                  "app" "reg" "log" "pc" "client" no_stdin pos0
                  (fun A m => reflexivity _) eq_refl eq_refl)).
Defined.

(** X4.  [NewTargetManagers] never stops a backend and never closes the
    position store, on any path: when it returns an error after the store
    was opened or after some backends were built, they are left as they
    are. *)
Theorem construction_never_stops
    (range : RangeOrder) (E : Env) (app : Shutdownable) (reg : Registerer)
    (logger : Logger) (positionsConfig : positions.Config)
    (client : EntryHandler) (scrapeConfigs : list Config)
    (targetConfig : file.Config) (e : Event) :
  e ∈ (construct range E app reg logger positionsConfig client
         scrapeConfigs targetConfig).2 ->
  stopped_backend e = None /\ closes_position_store e = false.
Proof.
  intros Hin. destruct (file.Stdin targetConfig) eqn:Hstdin.
  { rewrite path_stdin in Hin by done. simpl in Hin.
    rewrite !elem_of_cons, elem_of_nil in Hin.
    by destruct Hin as [->|[->|[]]]. }
  destruct (env_positions E positionsConfig) as [err|p] eqn:Hpos.
  { rewrite (path_positions_error _ _ _ _ _ _ _ _ _ err) in Hin by done.
    apply list_elem_of_singleton in Hin. by subst e. }
  destruct (known_or_unknown scrapeConfigs) as [Hknown|Hun].
  - destruct (path_built range E app reg logger positionsConfig client
                scrapeConfigs targetConfig p Hstdin Hpos Hknown)
      as (m & out & evs & _ & Hev & Htr & _).
    rewrite Htr in Hin. apply elem_of_cons in Hin as [->|Hin]; [done|].
    apply elem_of_app in Hin as [Hin|Hin].
    + unfold provision_events in Hin. rewrite !elem_of_app in Hin.
      destruct Hin as [H|[H|H]]; destruct (needs_registry _ m);
        try (by apply elem_of_nil in H);
        apply list_elem_of_singleton in H; by subst e.
    + rewrite Forall_forall in Hev. destruct (Hev e Hin) as (kg & _ & Hcall).
      by destruct e.
  - rewrite (path_unknown _ _ _ _ _ _ _ _ _ p) in Hin by done.
    apply list_elem_of_singleton in Hin. by subst e.
Qed.

Lemma recognized_first_match (cfgs : list Config) :
  Forall (fun cfg => is_Some (switch_case cfg)) cfgs ->
  Forall (fun cfg => is_Some (first_match cfg)) cfgs.
Proof.
  intros H. eapply Forall_impl; [exact H|]. intros cfg Hcfg.
  by rewrite <- switch_case_first_match.
Qed.

(** X5.  Fail fast.  When construction got past classification and still
    returns an error, a backend constructor failed: it was called with the
    whole group of its kind, its call is the last call of the run, and the
    error returned is that constructor's error wrapped with the message of
    the loop's case for that kind. *)
Theorem backend_failure_is_last_call
    (range : RangeOrder) (E : Env) (app : Shutdownable) (reg : Registerer)
    (logger : Logger) (positionsConfig : positions.Config)
    (client : EntryHandler) (scrapeConfigs : list Config)
    (targetConfig : file.Config) (p : positions.Positions) (failure : error) :
  range_valid range ->
  file.Stdin targetConfig = false ->
  env_positions E positionsConfig = inr p ->
  Forall (fun cfg => is_Some (switch_case cfg)) scrapeConfigs ->
  (construct range E app reg logger positionsConfig client
     scrapeConfigs targetConfig).1 = (None, Some failure) ->
  exists kind e err before,
    kind ∈ kinds /\
    group kind scrapeConfigs <> [] /\
    provisioned_call E reg logger client targetConfig p kind
      (group kind scrapeConfigs) = Some (e, inl err) /\
    failure = Wrap err (wrap_message kind) /\
    (construct range E app reg logger positionsConfig client
       scrapeConfigs targetConfig).2 = before ++ [e].
Proof.
  intros Hrange Hstdin Hpos Hknown Hres.
  apply recognized_first_match in Hknown.
  destruct (path_run range E app reg logger positionsConfig client
              scrapeConfigs targetConfig p Hrange Hstdin Hpos Hknown)
    as (m & l & _ & Hl &
        [[_ Hrun]|(l1 & k & g & l2 & e & err & Hsplit & _ & Hc & Hrun)]);
    rewrite Hrun in Hres |- *; [discriminate|].
  injection Hres as <-.
  assert (Hin : (k, g) ∈ group_entries scrapeConfigs).
  { rewrite <- Hl, Hsplit. apply elem_of_app. right. left. }
  apply elem_of_group_entries in Hin as (Hk & -> & Hne).
  exists k, e, err. eexists. repeat split; [done..|].
  simpl. by rewrite app_comm_cons, app_assoc.
Qed.

Lemma backend_failure_is_last_call_witness :
  exists kind e err before,
    kind ∈ kinds /\
    group kind [cfg_file; cfg_gcplog] <> [] /\
    provisioned_call env_gcplog_fails "reg" "log" "client" no_stdin pos0 kind
      (group kind [cfg_file; cfg_gcplog]) = Some (e, inl err) /\
    Wrap (New "no credentials") "failed to make syslog target manager" =
      Wrap err (wrap_message kind) /\
    (construct range_listing env_gcplog_fails "app" "reg" "log" "pc" "client"
       [cfg_file; cfg_gcplog] no_stdin).2 = before ++ [e].
Proof.
  apply (backend_failure_is_last_call range_listing env_gcplog_fails
           "app" "reg" "log" "pc" "client" [cfg_file; cfg_gcplog] no_stdin pos0).
  - intros A m. reflexivity.
  - reflexivity.
  - reflexivity.
  - repeat constructor; by eexists.
  - vm_compute. reflexivity.
Defined.

(** X6.  With the position store open and every config recognized,
    construction succeeds exactly when the constructor of every kind with
    a non-empty group succeeds on that group; the iteration order of the
    map plays no part in it. *)
Theorem success_iff_constructors_succeed
    (range : RangeOrder) (E : Env) (app : Shutdownable) (reg : Registerer)
    (logger : Logger) (positionsConfig : positions.Config)
    (client : EntryHandler) (scrapeConfigs : list Config)
    (targetConfig : file.Config) (p : positions.Positions) :
  range_valid range ->
  file.Stdin targetConfig = false ->
  env_positions E positionsConfig = inr p ->
  Forall (fun cfg => is_Some (switch_case cfg)) scrapeConfigs ->
  (exists tm,
     (construct range E app reg logger positionsConfig client
        scrapeConfigs targetConfig).1 = (Some tm, None))
  <->
  (forall kind,
     kind ∈ kinds -> group kind scrapeConfigs <> [] ->
     exists e t,
       provisioned_call E reg logger client targetConfig p kind
         (group kind scrapeConfigs) = Some (e, inr t)).
Proof.
  intros Hrange Hstdin Hpos Hknown. apply recognized_first_match in Hknown.
  destruct (path_run range E app reg logger positionsConfig client
              scrapeConfigs targetConfig p Hrange Hstdin Hpos Hknown)
    as (m & l & _ & Hl &
        [[Hall Hrun]|(l1 & k & g & l2 & e & err & Hsplit & _ & Hc & Hrun)]);
    rewrite Hrun; simpl.
  - split; [|by eauto]. intros _ kind Hk Hne.
    assert (Hin : (kind, group kind scrapeConfigs) ∈ l).
    { rewrite Hl. by apply elem_of_group_entries. }
    rewrite Forall_forall in Hall. destruct (Hall _ Hin) as [t Ht].
    unfold call_backend in Ht. simpl in Ht.
    destruct (provisioned_call _ _ _ _ _ _ _ _) as [[e [err|t']]|];
      try discriminate.
    by exists e, t'.
  - split; [by intros [tm ?]|]. intros Hall.
    assert (Hin : (k, g) ∈ group_entries scrapeConfigs).
    { rewrite <- Hl, Hsplit. apply elem_of_app. right. left. }
    apply elem_of_group_entries in Hin as (Hk & -> & Hne).
    destruct (Hall k Hk Hne) as (e' & t & Hok). congruence.
Qed.

Lemma success_iff_constructors_succeed_witness :
  exists tm,
    (construct range_listing env_ok "app" "reg" "log" "pc" "client"
       [cfg_file; cfg_push] no_stdin).1 = (Some tm, None).
Proof.
  apply (proj2 (success_iff_constructors_succeed range_listing env_ok
                  "app" "reg" "log" "pc" "client" [cfg_file; cfg_push]
                  no_stdin pos0 (fun A m => reflexivity _) eq_refl eq_refl
                  ltac:(repeat constructor; by eexists))).
  intros kind Hk _. unfold kinds in Hk.
  rewrite !elem_of_cons, elem_of_nil in Hk.
  destruct Hk as [->|[->|[->|[->|[->|[]]]]]]; by eexists _, _.
Defined.

(** X7.  One backend per kind, not per config: a manager built outside the
    single-stream mode holds as many backends as there are kinds with a
    non-empty group, hence at most five, however many configs there are. *)
Theorem one_backend_per_used_kind
    (range : RangeOrder) (E : Env) (app : Shutdownable) (reg : Registerer)
    (logger : Logger) (positionsConfig : positions.Config)
    (client : EntryHandler) (scrapeConfigs : list Config)
    (targetConfig : file.Config) (tm : TargetManagers) :
  range_valid range ->
  file.Stdin targetConfig = false ->
  (construct range E app reg logger positionsConfig client
     scrapeConfigs targetConfig).1 = (Some tm, None) ->
  length (targetManagers tm) = length (group_entries scrapeConfigs) /\
  length (targetManagers tm) <= 5.
Proof.
  intros Hrange Hstdin Hres.
  destruct (env_positions E positionsConfig) as [err|p] eqn:Hpos.
  { rewrite (path_positions_error _ _ _ _ _ _ _ _ _ err) in Hres by done.
    discriminate. }
  destruct (known_or_unknown scrapeConfigs) as [Hknown|Hun].
  2: { rewrite (path_unknown _ _ _ _ _ _ _ _ _ p) in Hres by done. discriminate. }
  destruct (path_run range E app reg logger positionsConfig client
              scrapeConfigs targetConfig p Hrange Hstdin Hpos Hknown)
    as (m & l & _ & Hl &
        [[Hall Hrun]|(l1 & k & g & l2 & e & err & _ & _ & _ & Hrun)]);
    rewrite Hrun in Hres; [|discriminate].
  injection Hres as <-. simpl.
  assert (Hlen : length (omap (call_backend
                   (provisioned_call E reg logger client targetConfig p)) l)
                 = length (group_entries scrapeConfigs)).
  { rewrite <- Hl.
    symmetry. eapply Forall2_length, built_backends, Hall. }
  split; [done|]. rewrite Hlen. apply length_group_entries.
Qed.

Lemma one_backend_per_used_kind_witness :
  length [backend "gcplog" false [];
          backend "file" true [("varlogs", ["/var/log/a"])];
          backend "journal" false []] =
    length (group_entries [cfg_file; cfg_gcplog; cfg_file2; cfg_journal]) /\
  length [backend "gcplog" false [];
          backend "file" true [("varlogs", ["/var/log/a"])];
          backend "journal" false []] <= 5.
Proof.
  apply (one_backend_per_used_kind range_listing env_ok "app" "reg" "log" "pc"
           "client" [cfg_file; cfg_gcplog; cfg_file2; cfg_journal] no_stdin
           {| targetManagers :=
                [backend "gcplog" false [];
                 backend "file" true [("varlogs", ["/var/log/a"])];
                 backend "journal" false []];
              positions := Some pos0 |}).
  - intros A m. reflexivity.
  - reflexivity.
  - vm_compute. reflexivity.
Defined.

(** X8.  In one run the constructor of a kind is called at most once: the
    kinds of the backend constructor calls of a run are pairwise
    distinct. *)
Theorem each_kind_constructed_at_most_once
    (range : RangeOrder) (E : Env) (app : Shutdownable) (reg : Registerer)
    (logger : Logger) (positionsConfig : positions.Config)
    (client : EntryHandler) (scrapeConfigs : list Config)
    (targetConfig : file.Config) :
  range_valid range ->
  NoDup (omap backend_call
           (construct range E app reg logger positionsConfig client
              scrapeConfigs targetConfig).2).*1.
Proof.
  intros Hrange. destruct (file.Stdin targetConfig) eqn:Hstdin.
  { rewrite path_stdin by done. simpl. constructor. }
  destruct (env_positions E positionsConfig) as [err|p] eqn:Hpos.
  { rewrite (path_positions_error _ _ _ _ _ _ _ _ _ err) by done. constructor. }
  destruct (known_or_unknown scrapeConfigs) as [Hknown|Hun].
  2: { rewrite (path_unknown _ _ _ _ _ _ _ _ _ p) by done. constructor. }
  assert (Hprov : forall m, omap backend_call (provision_events reg m) = []).
  { intros m. unfold provision_events.
    by destruct (needs_registry _ m), (needs_registry _ m), (needs_registry _ m). }
  destruct (path_run range E app reg logger positionsConfig client
              scrapeConfigs targetConfig p Hrange Hstdin Hpos Hknown)
    as (m & l & _ & Hl &
        [[Hall Hrun]|(l1 & k & g & l2 & e & err & Hsplit & Hall & Hc & Hrun)]);
    rewrite Hrun; cbn [snd];
    rewrite (omap_cons_None backend_call) by done;
    rewrite !omap_app, Hprov, (backend_calls_of_events _ _ _ _ _ _ _ Hall);
    cbn [Datatypes.app].
  - rewrite Hl. apply NoDup_fst_group_entries.
  - apply provisioned_call_event in Hc as [Hb _].
    rewrite (omap_cons_Some _ _ _ _ Hb). cbn [omap].
    pose proof (NoDup_fst_group_entries scrapeConfigs) as Hnd.
    rewrite <- Hl, Hsplit, fmap_app, fmap_cons in Hnd.
    rewrite fmap_app. cbn [fmap list_fmap].
    apply NoDup_app in Hnd as (Hnd1 & Hdisj & Hnd2).
    apply NoDup_app. split; [done|]. split.
    + intros x Hx Hx'. apply list_elem_of_singleton in Hx'. subst x.
      apply (Hdisj _ Hx). left.
    + apply NoDup_singleton.
Qed.

Lemma each_kind_constructed_at_most_once_witness :
  NoDup (omap backend_call
           (construct range_listing env_ok "app" "reg" "log" "pc" "client"
              [cfg_file; cfg_gcplog; cfg_file2; cfg_journal] no_stdin).2).*1.
Proof.
  apply (each_kind_constructed_at_most_once range_listing env_ok "app" "reg"
           "log" "pc" "client" [cfg_file; cfg_gcplog; cfg_file2; cfg_journal]
           no_stdin).
  intros A m. reflexivity.
Defined.

Lemma Ready_loop_Permutation tms tms' :
  tms ≡ₚ tms' -> Ready_loop tms = Ready_loop tms'.
Proof.
  intros Hp. apply eq_true_iff_eq. rewrite !Ready_loop_true.
  by setoid_rewrite Hp.
Qed.

Lemma provisioned_call_same_answer E1 E2 reg logger client targetConfig p k g e a :
  provisioned_call E1 reg logger client targetConfig p k g = Some (e, a) ->
  same_answer E1 E2 e ->
  provisioned_call E2 reg logger client targetConfig p k g = Some (e, a).
Proof.
  unfold provisioned_call, constructor_call.
  repeat case_decide; intros Hc Hsame; simplify_eq; simpl in Hsame;
    by rewrite Hsame.
Qed.

Lemma omap_agree {A B} (f f' : A -> option B) (l : list A) :
  Forall (fun x => f' x = f x) l -> omap f' l = omap f l.
Proof.
  induction 1 as [|x l Hx _ IH]; [done|].
  destruct (f x) as [b|] eqn:Hf.
  - rewrite (omap_cons_Some _ _ _ _ Hf).
    by rewrite (omap_cons_Some _ _ _ _ Hx), IH.
  - rewrite (omap_cons_None _ _ _ Hf).
    by rewrite (omap_cons_None _ _ _ Hx), IH.
Qed.

(** X9.  Take a run that succeeds, and a second run on the same input in
    which every constructor the first one called gives the same answer to
    the same arguments.  Then the second run succeeds as well, under every
    admissible iteration order of the map of groups, with the same position
    store and the same backends up to their order in the list, hence the
    same readiness.  That the constructors answer alike is a hypothesis:
    the code of [NewTargetManagers] cannot establish it. *)
Theorem success_independent_of_iteration_order
    (range1 range2 : RangeOrder) (E1 E2 : Env) (app : Shutdownable)
    (reg : Registerer) (logger : Logger) (positionsConfig : positions.Config)
    (client : EntryHandler) (scrapeConfigs : list Config)
    (targetConfig : file.Config) (tm1 : TargetManagers) :
  range_valid range1 ->
  range_valid range2 ->
  (construct range1 E1 app reg logger positionsConfig client
     scrapeConfigs targetConfig).1 = (Some tm1, None) ->
  Forall (same_answer E1 E2)
    (construct range1 E1 app reg logger positionsConfig client
       scrapeConfigs targetConfig).2 ->
  exists tm2,
    (construct range2 E2 app reg logger positionsConfig client
       scrapeConfigs targetConfig).1 = (Some tm2, None) /\
    targetManagers tm1 ≡ₚ targetManagers tm2 /\
    positions tm1 = positions tm2 /\
    Ready tm1 = Ready tm2.
Proof.
  intros Hr1 Hr2 Hres Hsame. destruct (file.Stdin targetConfig) eqn:Hstdin.
  { rewrite path_stdin in Hres, Hsame |- * by done. simpl in Hres, Hsame.
    apply Forall_cons in Hsame as [_ Hsame].
    apply Forall_cons in Hsame as [Hsame _]. simpl in Hsame. rewrite Hsame.
    exists tm1. by rewrite Hres. }
  destruct (env_positions E1 positionsConfig) as [err|p] eqn:Hpos.
  { rewrite (path_positions_error _ _ _ _ _ _ _ _ _ err) in Hres by done.
    discriminate. }
  destruct (known_or_unknown scrapeConfigs) as [Hknown|Hun].
  2: { rewrite (path_unknown _ _ _ _ _ _ _ _ _ p) in Hres by done. discriminate. }
  destruct (path_run range1 E1 app reg logger positionsConfig client
              scrapeConfigs targetConfig p Hr1 Hstdin Hpos Hknown)
    as (m1 & l1 & _ & Hl1 &
        [[Hall1 Hrun1]|(? & ? & ? & ? & ? & ? & _ & _ & _ & Hrun1)]);
    rewrite Hrun1 in Hres, Hsame; [|discriminate].
  injection Hres as <-. simpl in Hsame.
  apply Forall_cons in Hsame as [Hpos2 Hsame]. simpl in Hpos2.
  rewrite Hpos in Hpos2. apply Forall_app in Hsame as [_ Hsame].
  set (c1 := provisioned_call E1 reg logger client targetConfig p) in *.
  set (c2 := provisioned_call E2 reg logger client targetConfig p).
  assert (Hagree : forall kg, kg ∈ l1 -> c2 kg.1 kg.2 = c1 kg.1 kg.2).
  { intros [k g] Hin. rewrite Forall_forall in Hall1.
    destruct (Hall1 _ Hin) as [t Ht]. unfold call_backend in Ht. simpl in *.
    destruct (c1 k g) as [[e a]|] eqn:Hc; [|discriminate].
    apply (provisioned_call_same_answer E1 E2); [done|].
    rewrite Forall_forall in Hsame. apply Hsame.
    apply list_elem_of_omap. exists (k, g). split; [done|].
    unfold call_event. simpl. by rewrite Hc. }
  destruct (path_run range2 E2 app reg logger positionsConfig client
              scrapeConfigs targetConfig p Hr2 Hstdin Hpos2 Hknown)
    as (m2 & l2 & _ & Hl2 &
        [[Hall2 Hrun2]|(l & k & g & l' & e & err & Hsplit & _ & Hc & Hrun2)]);
    rewrite Hrun2.
  - eexists. split; [reflexivity|]. simpl. fold c2.
    assert (Hperm : omap (call_backend c1) l1 ≡ₚ omap (call_backend c2) l2).
    { rewrite <- (omap_agree (call_backend c1) (call_backend c2) l1).
      - by rewrite Hl1, Hl2.
      - apply Forall_forall. intros kg Hin. unfold call_backend.
        by rewrite (Hagree kg Hin). }
    split; [done|]. split; [done|]. unfold Ready. simpl.
    by apply Ready_loop_Permutation.
  - exfalso.
    assert (Hin : (k, g) ∈ l1).
    { rewrite Hl1, <- Hl2, Hsplit. apply elem_of_app. right. left. }
    rewrite Forall_forall in Hall1. destruct (Hall1 _ Hin) as [t Ht].
    unfold call_backend in Ht. rewrite <- (Hagree _ Hin) in Ht. simpl in Ht.
    fold c2 in Hc. rewrite Hc in Ht. discriminate.
Qed.

Lemma success_independent_of_iteration_order_witness :
  exists tm2,
    (construct (fun A m => reverse (map_to_list m)) env_gcplog_fails "app"
       "reg" "log" "pc" "client" [cfg_file; cfg_push; cfg_journal] no_stdin).1 =
      (Some tm2, None) /\
    [backend "file" true [("varlogs", ["/var/log/a"])];
     backend "journal" false [];
     backend "push" false []] ≡ₚ targetManagers tm2 /\
    Some pos0 = positions tm2 /\
    Ready {| targetManagers :=
               [backend "file" true [("varlogs", ["/var/log/a"])];
                backend "journal" false [];
                backend "push" false []];
             positions := Some pos0 |} = Ready tm2.
Proof.
  apply (success_independent_of_iteration_order range_listing
           (fun A m => reverse (map_to_list m)) env_ok env_gcplog_fails
           "app" "reg" "log" "pc" "client" [cfg_file; cfg_push; cfg_journal]
           no_stdin
           {| targetManagers :=
                [backend "file" true [("varlogs", ["/var/log/a"])];
                 backend "journal" false [];
                 backend "push" false []];
              positions := Some pos0 |}).
  - intros A m. reflexivity.
  - intros A m. apply reverse_Permutation.
  - vm_compute. reflexivity.
  - vm_compute. repeat constructor.
Defined.

(** X10.  Shared resources reach the constructors: outside the
    single-stream mode, every call to the file, syslog or pub/sub
    constructor carries a created registry bound to the registerer, never
    nil; every call to the file or journal constructor carries the position
    store that [positions.New] returned; and that same store is the one a
    successful run puts into the manager. *)
Theorem constructors_get_registry_and_store
    (range : RangeOrder) (E : Env) (app : Shutdownable) (reg : Registerer)
    (logger : Logger) (positionsConfig : positions.Config)
    (client : EntryHandler) (scrapeConfigs : list Config)
    (targetConfig : file.Config) (p : positions.Positions) :
  range_valid range ->
  file.Stdin targetConfig = false ->
  env_positions E positionsConfig = inr p ->
  (forall e,
     e ∈ (construct range E app reg logger positionsConfig client
            scrapeConfigs targetConfig).2 ->
     well_provisioned reg p e) /\
  (forall tm,
     (construct range E app reg logger positionsConfig client
        scrapeConfigs targetConfig).1 = (Some tm, None) ->
     positions tm = Some p).
Proof.
  intros Hrange Hstdin Hpos.
  destruct (known_or_unknown scrapeConfigs) as [Hknown|Hun].
  2: { rewrite (path_unknown _ _ _ _ _ _ _ _ _ p) by done. split; [|done].
       intros e Hin. apply list_elem_of_singleton in Hin. by subst e. }
  assert (Hcalls : forall (l : list (string * list Config)) e,
            e ∈ omap (call_event
                        (provisioned_call E reg logger client targetConfig p)) l ->
            well_provisioned reg p e).
  { intros l e Hin. apply call_event_spec in Hin as (k & g & a & _ & Hc).
    by apply provisioned_call_event in Hc as (_ & _ & Hw). }
  assert (Hprov : forall m e, e ∈ provision_events reg m -> well_provisioned reg p e).
  { intros m e Hin. unfold provision_events in Hin. rewrite !elem_of_app in Hin.
    destruct Hin as [H|[H|H]]; destruct (needs_registry _ m);
      try (by apply elem_of_nil in H);
      apply list_elem_of_singleton in H; by subst e. }
  destruct (path_run range E app reg logger positionsConfig client
              scrapeConfigs targetConfig p Hrange Hstdin Hpos Hknown)
    as (m & l & _ & _ &
        [[_ Hrun]|(l1 & k & g & l2 & e' & err & _ & _ & Hc & Hrun)]);
    rewrite Hrun; cbn [fst snd]; (split; [|by intros tm [= <-]]);
    intros e Hin; apply elem_of_cons in Hin as [->|Hin]; try done;
    apply elem_of_app in Hin as [Hin|Hin]; eauto.
  apply elem_of_app in Hin as [Hin|Hin]; eauto.
  apply list_elem_of_singleton in Hin. subst e.
  by apply provisioned_call_event in Hc as (_ & _ & Hw).
Qed.

Lemma constructors_get_registry_and_store_witness :
  well_provisioned "reg" pos0
    (file_NewFileTargetManager (Some {| file.reg := "reg" |}) "log" pos0
       "client" [cfg_file] no_stdin).
Proof.
  refine (proj1 (constructors_get_registry_and_store range_listing env_ok
            "app" "reg" "log" "pc" "client" [cfg_file; cfg_journal] no_stdin
            pos0 _ _ _) _ _).
  - intros A m. reflexivity.
  - reflexivity.
  - reflexivity.
  - vm_compute. do 2 right. left.
Defined.

Lemma gmap_eq_total (a b : gmap string (list Target)) :
  (forall i, a !!! i = b !!! i) ->
  (forall i, is_Some (a !! i) <-> is_Some (b !! i)) ->
  a = b.
Proof.
  intros Ht Hs. apply map_eq. intros i.
  specialize (Ht i). specialize (Hs i). rewrite !lookup_total_alt in Ht.
  destruct (a !! i) as [x|], (b !! i) as [y|]; simpl in *.
  - by subst.
  - by destruct (proj1 Hs (mk_is_Some _ _ eq_refl)).
  - by destruct (proj2 Hs (mk_is_Some _ _ eq_refl)).
  - done.
Qed.

Lemma concat_map_Permutation {A B} (f : A -> list B) (l k : list A) :
  l ≡ₚ k -> concat (map f l) ≡ₚ concat (map f k).
Proof.
  induction 1 as [|x l k _ IH|x y l|l k j _ IH1 _ IH2]; simpl.
  - done.
  - by rewrite IH.
  - by rewrite !app_assoc, (Permutation_app_comm (f y)).
  - by rewrite IH1.
Qed.

(** X11.  The inventories do not depend on the order in which a backend's
    map is iterated; and if the backends of two managers are the same up
    to order, each job has the same targets up to order and the two
    results have the same job names. *)
Theorem targets_independent_of_iteration_order
    (range1 range2 : RangeOrder) (tm tm' : TargetManagers) :
  range_valid range1 ->
  range_valid range2 ->
  (ActiveTargets range1 tm = ActiveTargets range2 tm /\
   AllTargets range1 tm = AllTargets range2 tm) /\
  (targetManagers tm ≡ₚ targetManagers tm' ->
   forall job,
     (ActiveTargets range1 tm !!! job ≡ₚ ActiveTargets range2 tm' !!! job /\
      (is_Some (ActiveTargets range1 tm !! job) <->
       is_Some (ActiveTargets range2 tm' !! job))) /\
     (AllTargets range1 tm !!! job ≡ₚ AllTargets range2 tm' !!! job /\
      (is_Some (AllTargets range1 tm !! job) <->
       is_Some (AllTargets range2 tm' !! job)))).
Proof.
  intros Hr1 Hr2. unfold ActiveTargets, AllTargets. split; [split|].
  - apply gmap_eq_total; intros job.
    + by rewrite !merge_targets_total.
    + by rewrite !merge_targets_is_Some.
  - apply gmap_eq_total; intros job.
    + by rewrite !merge_targets_total.
    + by rewrite !merge_targets_is_Some.
  - intros Hp job. rewrite !merge_targets_total, !merge_targets_is_Some by done.
    repeat split; try (by apply concat_map_Permutation);
      intros (t & Hin & Ht); exists t; split; try done;
      by (rewrite Hp || rewrite <- Hp).
Qed.

Lemma targets_independent_of_iteration_order_witness :
  ActiveTargets range_listing manager_AB !!! "x" ≡ₚ
  ActiveTargets (fun A m => reverse (map_to_list m))
    {| targetManagers := [backend_B; backend_A]; positions := None |} !!! "x".
Proof.
  refine (proj1 (proj1 (proj2 (targets_independent_of_iteration_order
            range_listing (fun A m => reverse (map_to_list m)) manager_AB
            {| targetManagers := [backend_B; backend_A]; positions := None |}
            _ _) _ "x"))).
  - intros A m. reflexivity.
  - intros A m. apply reverse_Permutation.
  - apply Permutation_swap.
Defined.

(** X12.  Construction and shutdown fit together: after a successful run
    outside the single-stream mode, [Stop] stops, in the order their
    constructors were called, exactly the backends those constructor calls
    returned, and then closes the position store that [positions.New]
    returned in that run. *)
Theorem stop_after_construction
    (range : RangeOrder) (E : Env) (app : Shutdownable) (reg : Registerer)
    (logger : Logger) (positionsConfig : positions.Config)
    (client : EntryHandler) (scrapeConfigs : list Config)
    (targetConfig : file.Config) (p : positions.Positions)
    (tm : TargetManagers) (tr0 : Trace) :
  range_valid range ->
  file.Stdin targetConfig = false ->
  env_positions E positionsConfig = inr p ->
  (construct range E app reg logger positionsConfig client
     scrapeConfigs targetConfig).1 = (Some tm, None) ->
  exists stops,
    run (Stop tm) tr0 = (tt, tr0 ++ stops ++ [positions_Stop p]) /\
    Forall2
      (fun kg stop =>
         exists e t,
           provisioned_call E reg logger client targetConfig p kg.1 kg.2 =
             Some (e, inr t) /\
           stop = targetManager_Stop t)
      (omap backend_call
         (construct range E app reg logger positionsConfig client
            scrapeConfigs targetConfig).2)
      stops.
Proof.
  intros Hrange Hstdin Hpos Hres.
  destruct (known_or_unknown scrapeConfigs) as [Hknown|Hun].
  2: { rewrite (path_unknown _ _ _ _ _ _ _ _ _ p) in Hres by done. discriminate. }
  assert (Hprov : forall m, omap backend_call (provision_events reg m) = []).
  { intros m. unfold provision_events.
    by destruct (needs_registry _ m), (needs_registry _ m), (needs_registry _ m). }
  destruct (path_run range E app reg logger positionsConfig client
              scrapeConfigs targetConfig p Hrange Hstdin Hpos Hknown)
    as (m & l & _ & _ &
        [[Hall Hrun]|(? & ? & ? & ? & ? & ? & _ & _ & _ & Hrun)]);
    rewrite Hrun in Hres |- *; [|discriminate].
  injection Hres as <-. rewrite Stop_trace. cbn [targetManagers positions snd].
  eexists. split; [reflexivity|].
  rewrite (omap_cons_None backend_call) by done.
  rewrite omap_app, Hprov, (backend_calls_of_events _ _ _ _ _ _ _ Hall).
  cbn [Datatypes.app]. apply Forall2_fmap_r.
  eapply Forall2_impl; [by apply built_backends|].
  intros [k g] t [e He]. by exists e, t.
Qed.

Lemma stop_after_construction_witness :
  exists stops,
    run (Stop {| targetManagers :=
                   [backend "file" true [("varlogs", ["/var/log/a"])];
                    backend "journal" false []];
                 positions := Some pos0 |}) [] =
      (tt, [] ++ stops ++ [positions_Stop pos0]) /\
    Forall2
      (fun kg stop =>
         exists e t,
           provisioned_call env_ok "reg" "log" "client" no_stdin pos0 kg.1 kg.2 =
             Some (e, inr t) /\
           stop = targetManager_Stop t)
      (omap backend_call
         (construct range_listing env_ok "app" "reg" "log" "pc" "client"
            [cfg_file; cfg_journal] no_stdin).2)
      stops.
Proof.
  apply (stop_after_construction range_listing env_ok "app" "reg" "log" "pc"
           "client" [cfg_file; cfg_journal] no_stdin pos0).
  - intros A m. reflexivity.
  - reflexivity.
  - reflexivity.
  - vm_compute. reflexivity.
Defined.

(** X13.  The errors of the single-stream constructor and of
    [positions.New] are returned as they are, not wrapped, and in both cases
    nothing else has been called: no registry, no backend constructor. *)
Theorem first_errors_returned_unwrapped
    (range : RangeOrder) (E : Env) (app : Shutdownable) (reg : Registerer)
    (logger : Logger) (positionsConfig : positions.Config)
    (client : EntryHandler) (scrapeConfigs : list Config)
    (targetConfig : file.Config) (err : error) :
  (file.Stdin targetConfig = true ->
   env_stdin E scrapeConfigs = inl err ->
   construct range E app reg logger positionsConfig client
     scrapeConfigs targetConfig =
   ((None, Some err),
    [Log_Debug logger "configured to read from stdin";
     stdin_NewStdinTargetManager reg logger app client scrapeConfigs])) /\
  (file.Stdin targetConfig = false ->
   env_positions E positionsConfig = inl err ->
   construct range E app reg logger positionsConfig client
     scrapeConfigs targetConfig =
   ((None, Some err), [positions_New logger positionsConfig])).
Proof.
  split.
  - intros Hstdin Herr. rewrite path_stdin by done. by rewrite Herr.
  - intros Hstdin Herr. by apply path_positions_error.
Qed.

Lemma first_errors_returned_unwrapped_witness :
  construct range_listing env_positions_fails "app" "reg" "log" "pc" "client"
    [cfg_file; cfg_unknown] no_stdin =
  ((None, Some (New "positions file unwritable")), [positions_New "log" "pc"]).
Proof.
  exact (proj2 (first_errors_returned_unwrapped range_listing
                  env_positions_fails "app" "reg" "log" "pc" "client"
                  [cfg_file; cfg_unknown] no_stdin
                  (New "positions file unwritable")) eq_refl eq_refl).
Defined.

(** X14.  Readiness of a manager over two lists of backends put together is
    the disjunction of the readiness over each list: more backends never
    turn a ready manager into one that is not. *)
Theorem ready_of_appended_backends
    (tms1 tms2 : list targetManager) (pos : option positions.Positions) :
  Ready {| targetManagers := tms1 ++ tms2; positions := pos |} =
  Ready {| targetManagers := tms1; positions := pos |} ||
  Ready {| targetManagers := tms2; positions := pos |}.
Proof.
  unfold Ready. simpl. induction tms1 as [|t rest IH]; [done|].
  simpl. by destruct (t_Ready t).
Qed.

(** X15.  The inventory of a manager over two lists of backends put
    together is, job by job, the inventory over the first list followed by
    the inventory over the second. *)
Theorem targets_of_appended_backends
    (range : RangeOrder) (tms1 tms2 : list targetManager)
    (pos : option positions.Positions) (job : string) :
  range_valid range ->
  ActiveTargets range {| targetManagers := tms1 ++ tms2; positions := pos |}
    !!! job =
  ActiveTargets range {| targetManagers := tms1; positions := pos |} !!! job ++
  ActiveTargets range {| targetManagers := tms2; positions := pos |} !!! job /\
  AllTargets range {| targetManagers := tms1 ++ tms2; positions := pos |}
    !!! job =
  AllTargets range {| targetManagers := tms1; positions := pos |} !!! job ++
  AllTargets range {| targetManagers := tms2; positions := pos |} !!! job.
Proof.
  intros Hrange. unfold ActiveTargets, AllTargets. simpl.
  rewrite !merge_targets_total by done.
  by rewrite !map_app, !concat_app.
Qed.

Lemma targets_of_appended_backends_witness :
  ActiveTargets range_listing
    {| targetManagers := [backend_A] ++ [backend_B]; positions := None |}
    !!! "x" =
  ActiveTargets range_listing
    {| targetManagers := [backend_A]; positions := None |} !!! "x" ++
  ActiveTargets range_listing
    {| targetManagers := [backend_B]; positions := None |} !!! "x".
Proof.
  exact (proj1 (targets_of_appended_backends range_listing [backend_A]
                  [backend_B] None "x" (fun A m => reflexivity _))).
Defined.

Lemma filter_none {A} (P : A -> Prop) `{forall x, Decision (P x)} (l : list A) :
  Forall (fun x => ~ P x) l -> filter P l = [].
Proof.
  induction 1 as [|x l Hx _ IH]; [done|]. by rewrite filter_cons_False.
Qed.

(** X16.  In every run each registry is created at most once, and every
    registry is created before the first backend constructor is called. *)
Theorem registries_once_and_before_backends
    (range : RangeOrder) (E : Env) (app : Shutdownable) (reg : Registerer)
    (logger : Logger) (positionsConfig : positions.Config)
    (client : EntryHandler) (scrapeConfigs : list Config)
    (targetConfig : file.Config) :
  let tr := (construct range E app reg logger positionsConfig client
               scrapeConfigs targetConfig).2 in
  (forall kind,
     length (filter (fun e => metrics_call e = Some kind) tr) <= 1) /\
  (forall i j e1 e2,
     tr !! i = Some e1 -> tr !! j = Some e2 ->
     is_Some (metrics_call e1) -> is_Some (backend_call e2) -> i < j).
Proof.
  simpl.
  assert (Hquiet : forall (tr : Trace),
            Forall (fun e => metrics_call e = None /\ backend_call e = None) tr ->
            (forall kind,
               length (filter (fun e => metrics_call e = Some kind) tr) <= 1) /\
            (forall i j e1 e2,
               tr !! i = Some e1 -> tr !! j = Some e2 ->
               is_Some (metrics_call e1) -> is_Some (backend_call e2) -> i < j)).
  { intros tr Hall. rewrite Forall_forall in Hall. split.
    - intros kind. unfold Trace. rewrite (filter_none _ tr); [simpl; lia|].
      apply Forall_forall. intros e Hin He. destruct (Hall e Hin). congruence.
    - intros i j e1 e2 Hi _ [k Hk] _. apply list_elem_of_lookup_2 in Hi.
      destruct (Hall e1 Hi). congruence. }
  destruct (file.Stdin targetConfig) eqn:Hstdin.
  { rewrite path_stdin by done. apply Hquiet. by repeat constructor. }
  destruct (env_positions E positionsConfig) as [err|p] eqn:Hpos.
  { rewrite (path_positions_error _ _ _ _ _ _ _ _ _ err) by done.
    apply Hquiet. by repeat constructor. }
  destruct (known_or_unknown scrapeConfigs) as [Hknown|Hun].
  2: { rewrite (path_unknown _ _ _ _ _ _ _ _ _ p) by done.
       apply Hquiet. by repeat constructor. }
  destruct (path_built range E app reg logger positionsConfig client
              scrapeConfigs targetConfig p Hstdin Hpos Hknown)
    as (m & out & evs & _ & Hev & -> & _).
  assert (Hevs : forall e, e ∈ evs -> is_Some (backend_call e) /\ metrics_call e = None).
  { intros e Hin. rewrite Forall_forall in Hev.
    destruct (Hev e Hin) as (kg & _ & Hcall). split; [by eexists|].
    by apply backend_call_only in Hcall as [? _]. }
  split.
  - intros kind. unfold Trace. rewrite filter_cons_False by done.
    rewrite filter_app.
    rewrite (filter_none _ evs).
    2: { apply Forall_forall. intros e Hin He. destruct (Hevs e Hin). congruence. }
    rewrite app_nil_r. unfold provision_events. rewrite !filter_app.
    destruct (needs_registry FileScrapeConfigs m),
      (needs_registry SyslogScrapeConfigs m),
      (needs_registry GcplogScrapeConfigs m);
      rewrite ?filter_nil, ?filter_cons; simpl;
      repeat (destruct (decide _) as [[=]|?]; subst; simpl; try done);
      simpl; lia.
  - intros i j e1 e2 Hi Hj Hm He. unfold Trace in *.
    set (prefix := positions_New logger positionsConfig :: provision_events reg m).
    change (positions_New logger positionsConfig :: provision_events reg m ++ evs)
      with (prefix ++ evs) in Hi, Hj.
    assert (Hprefix : forall e, e ∈ prefix -> backend_call e = None).
    { intros e Hin. apply elem_of_cons in Hin as [->|Hin]; [done|].
      by apply provision_events_inert in Hin as [? _]. }
    destruct (decide (i < length prefix)) as [Hlt|Hge].
    + destruct (decide (j < length prefix)) as [Hjlt|?]; [|lia].
      rewrite lookup_app_l in Hj by done.
      apply list_elem_of_lookup_2, Hprefix in Hj.
      destruct He as [? He]. congruence.
    + rewrite lookup_app_r in Hi by lia.
      apply list_elem_of_lookup_2, Hevs in Hi as [_ Hno].
      destruct Hm as [? Hm]. congruence.
Qed.

Lemma construction_never_stops_witness :
  stopped_backend
    (gcplog_NewGcplogTargetManager (Some {| gcplog.reg := "reg" |}) "log"
       "client" [cfg_gcplog]) = None /\
  closes_position_store
    (gcplog_NewGcplogTargetManager (Some {| gcplog.reg := "reg" |}) "log"
       "client" [cfg_gcplog]) = false.
Proof.
  apply (construction_never_stops range_listing env_gcplog_fails "app" "reg"
           "log" "pc" "client" [cfg_file; cfg_gcplog] no_stdin).
  vm_compute. do 3 right. left.
Defined.

(** * The result pair *)

(** C10.  Whatever the input and whatever the iteration order,
    [NewTargetManagers] returns either a manager with a nil error or a nil
    manager with an error.  On each of the error paths the manager is nil
    and the error is the one of that path: the single-stream constructor's
    error and the position store's error as they are; the
    "unknown scrape config" error when a config is not recognized; and,
    when a backend constructor fails on its group, the error of a failing
    backend constructor, wrapped with the message of its case. *)
Theorem manager_or_error
    (range : RangeOrder) (E : Env) (app : Shutdownable) (reg : Registerer)
    (logger : Logger) (positionsConfig : positions.Config)
    (client : EntryHandler) (scrapeConfigs : list Config)
    (targetConfig : file.Config) :
  let res := (construct range E app reg logger positionsConfig client
                scrapeConfigs targetConfig).1 in
  ((exists tm, res = (Some tm, None)) \/ (exists err, res = (None, Some err))) /\
  (forall err,
     file.Stdin targetConfig = true ->
     env_stdin E scrapeConfigs = inl err ->
     res = (None, Some err)) /\
  (forall err,
     file.Stdin targetConfig = false ->
     env_positions E positionsConfig = inl err ->
     res = (None, Some err)) /\
  (forall p,
     file.Stdin targetConfig = false ->
     env_positions E positionsConfig = inr p ->
     (exists cfg, cfg ∈ scrapeConfigs /\ switch_case cfg = None) ->
     res = (None, Some (New "unknown scrape config"))) /\
  (forall p kind e err,
     range_valid range ->
     file.Stdin targetConfig = false ->
     env_positions E positionsConfig = inr p ->
     Forall (fun cfg => is_Some (switch_case cfg)) scrapeConfigs ->
     group kind scrapeConfigs <> [] ->
     provisioned_call E reg logger client targetConfig p kind
       (group kind scrapeConfigs) = Some (e, inl err) ->
     exists kind' e' err',
       group kind' scrapeConfigs <> [] /\
       provisioned_call E reg logger client targetConfig p kind'
         (group kind' scrapeConfigs) = Some (e', inl err') /\
       res = (None, Some (Wrap err' (wrap_message kind')))).
Proof.
  cbv zeta. split; [|split; [|split; [|split]]].
  - destruct (file.Stdin targetConfig) eqn:Hstdin.
    { rewrite path_stdin by done.
      destruct (env_stdin E scrapeConfigs); simpl; eauto. }
    destruct (env_positions E positionsConfig) as [err|p] eqn:Hpos.
    { rewrite (path_positions_error _ _ _ _ _ _ _ _ _ err) by done. eauto. }
    destruct (known_or_unknown scrapeConfigs) as [Hknown|Hun].
    + destruct (path_built range E app reg logger positionsConfig client
                  scrapeConfigs targetConfig p Hstdin Hpos Hknown)
        as (m & out & evs & _ & _ & _ & Hout).
      destruct out as [err|tms].
      * right. by exists err.
      * left. destruct Hout as [-> _]. by eexists.
    + rewrite (path_unknown _ _ _ _ _ _ _ _ _ p) by done. eauto.
  - intros err Hstdin Herr. rewrite path_stdin by done. by rewrite Herr.
  - intros err Hstdin Herr.
    by rewrite (path_positions_error _ _ _ _ _ _ _ _ _ err).
  - intros p Hstdin Hpos (cfg & Hin & Hcfg).
    rewrite (path_unknown _ _ _ _ _ _ _ _ _ p); [done..|].
    exists cfg. by rewrite <- switch_case_first_match.
  - intros p kind e err Hrange Hstdin Hpos Hknown Hne Hfail.
    apply recognized_first_match in Hknown.
    destruct (path_run range E app reg logger positionsConfig client
                scrapeConfigs targetConfig p Hrange Hstdin Hpos Hknown)
      as (m & l & _ & Hl &
          [[Hall Hrun]|(l1 & k & g & l2 & e' & err' & Hsplit & _ & Hc & Hrun)]).
    + exfalso.
      assert (Hk : kind ∈ kinds).
      { destruct (group kind scrapeConfigs) as [|cfg rest] eqn:Hg; [done|].
        assert (Hin : cfg ∈ group kind scrapeConfigs) by (rewrite Hg; left).
        apply list_elem_of_filter in Hin as [Hk _].
        by apply first_match_kind in Hk. }
      assert (Hin : (kind, group kind scrapeConfigs) ∈ l).
      { rewrite Hl. by apply elem_of_group_entries. }
      rewrite Forall_forall in Hall. destruct (Hall _ Hin) as [t Ht].
      unfold call_backend in Ht. simpl in Ht. rewrite Hfail in Ht.
      discriminate.
    + assert (Hin : (k, g) ∈ group_entries scrapeConfigs).
      { rewrite <- Hl, Hsplit. apply elem_of_app. right. left. }
      apply elem_of_group_entries in Hin as (_ & -> & Hne').
      exists k, e', err'. split; [done|]. split; [done|]. by rewrite Hrun.
Qed.

Lemma manager_or_error_witness :
  exists kind' e' err',
    group kind' [cfg_file; cfg_gcplog; cfg_journal] <> [] /\
    provisioned_call env_gcplog_fails "reg" "log" "client" no_stdin pos0 kind'
      (group kind' [cfg_file; cfg_gcplog; cfg_journal]) = Some (e', inl err') /\
    (construct range_listing env_gcplog_fails "app" "reg" "log" "pc" "client"
       [cfg_file; cfg_gcplog; cfg_journal] no_stdin).1 =
    (None, Some (Wrap err' (wrap_message kind'))).
Proof.
  refine (proj2 (proj2 (proj2 (proj2
            (manager_or_error range_listing env_gcplog_fails "app" "reg" "log"
               "pc" "client" [cfg_file; cfg_gcplog; cfg_journal] no_stdin))))
            pos0 GcplogScrapeConfigs
            (gcplog_NewGcplogTargetManager (Some {| gcplog.reg := "reg" |})
               "log" "client" [cfg_gcplog])
            (New "no credentials") _ _ _ _ _ _).
  - intros A m. reflexivity.
  - reflexivity.
  - reflexivity.
  - repeat constructor; vm_compute; eauto.
  - vm_compute. discriminate.
  - reflexivity.
Defined.
